(** * The [zipfile] Ansible module ([library/zipfile.py])

    A shallow embedding of [run_module] and of the Python and operating
    system primitives it calls, followed by the properties of the
    archive-construction logic: compression-level resolution, archive-name
    mapping, the overwrite guard and the exits of the module. *)

From stdpp Require Import base option list strings gmap.
From Stdlib Require Import Ascii String ZArith Lia.

Open Scope string_scope.
Open Scope list_scope.
Open Scope Z_scope.

(** ** Python strings

    The string methods the module uses, over [string]: a character stands
    for a code point below 256.  Indices are [Z] where Python can answer
    [-1] ([str.find], [str.rfind]). *)

Module PyStr.

Definition sep : ascii := "/"%char.
Definition tilde : ascii := "~"%char.

(** [len(s)] *)
Definition len (s : string) : Z := Z.of_nat (String.length s).

(** [s[i:]] for [0 <= i] *)
Fixpoint drop (n : nat) (s : string) : string :=
  match n, s with
  | O, _ => s
  | S _, EmptyString => EmptyString
  | S n', String _ r => drop n' r
  end.

(** [s[:i]] for [0 <= i] *)
Fixpoint take (n : nat) (s : string) : string :=
  match n, s with
  | O, _ => EmptyString
  | S _, EmptyString => EmptyString
  | S n', String a r => String a (take n' r)
  end.

(** [s[i:j]] for [0 <= i], [0 <= j] *)
Definition slice (i j : Z) (s : string) : string :=
  take (Z.to_nat (j - i)) (drop (Z.to_nat i) s).

(** [s[i:]] *)
Definition slice_from (i : Z) (s : string) : string := drop (Z.to_nat i) s.

(** [s.startswith(c)] for a one-character [c] *)
Definition startswith (c : ascii) (s : string) : bool :=
  match s with
  | String a _ => Ascii.eqb a c
  | EmptyString => false
  end.

(** [s.find(c)]: the lowest index of [c], or [-1] *)
Fixpoint find (c : ascii) (s : string) : Z :=
  match s with
  | EmptyString => -1
  | String a r =>
      if Ascii.eqb a c then 0
      else let k := find c r in if k <? 0 then -1 else k + 1
  end.

(** [s.find(c, start)] for [0 <= start] *)
Definition find_from (c : ascii) (start : Z) (s : string) : Z :=
  let k := find c (slice_from start s) in
  if k <? 0 then -1 else k + start.

(** [s.rfind(c)]: the highest index of [c], or [-1] *)
Fixpoint rfind (c : ascii) (s : string) : Z :=
  match s with
  | EmptyString => -1
  | String a r =>
      let k := rfind c r in
      if 0 <=? k then k + 1
      else if Ascii.eqb a c then 0 else -1
  end.

(** [s.lstrip(c)]: every leading [c] removed *)
Fixpoint lstrip (c : ascii) (s : string) : string :=
  match s with
  | String a r => if Ascii.eqb a c then lstrip c r else s
  | EmptyString => EmptyString
  end.

(** [s.rstrip(c)]: every trailing [c] removed *)
Fixpoint rstrip (c : ascii) (s : string) : string :=
  match s with
  | EmptyString => EmptyString
  | String a r =>
      match rstrip c r with
      | EmptyString => if Ascii.eqb a c then EmptyString else String a EmptyString
      | r' => String a r'
      end
  end.

(** [c in s] *)
Fixpoint contains (c : ascii) (s : string) : bool :=
  match s with
  | EmptyString => false
  | String a r => Ascii.eqb a c || contains c r
  end.

(** [s.split(c)] *)
Fixpoint split (c : ascii) (s : string) : list string :=
  match s with
  | EmptyString => [EmptyString]
  | String a r =>
      match split c r with
      | [] => [EmptyString]
      | h :: t => if Ascii.eqb a c then EmptyString :: h :: t
                  else String a h :: t
      end
  end.

(** [c * n] *)
Fixpoint replicate (n : nat) (c : ascii) : string :=
  match n with
  | O => EmptyString
  | S n' => String c (replicate n' c)
  end.

(** the number of leading [c] *)
Fixpoint leading (c : ascii) (s : string) : nat :=
  match s with
  | String a r => if Ascii.eqb a c then S (leading c r) else O
  | EmptyString => O
  end.

(** [s.endswith(c)] for a one-character [c] *)
Fixpoint endswith (c : ascii) (s : string) : bool :=
  match s with
  | EmptyString => false
  | String a r =>
      match r with
      | EmptyString => Ascii.eqb a c
      | _ => endswith c r
      end
  end.

(** [c.join(l)] *)
Fixpoint join (c : ascii) (l : list string) : string :=
  match l with
  | [] => EmptyString
  | s :: rest =>
      match rest with
      | [] => s
      | _ => s +:+ String c (join c rest)
      end
  end.

(** [s[:s.find(c)]] when [c] is in [s], and [s] when it is not *)
Fixpoint before (c : ascii) (s : string) : string :=
  match s with
  | EmptyString => EmptyString
  | String a r => if Ascii.eqb a c then EmptyString else String a (before c r)
  end.

Definition NUL : ascii := "000"%char.
Definition backslash : ascii := "092"%char.
Definition squote : ascii := "'"%char.
Definition dquote : ascii := "034"%char.

(** [c.isprintable()]: below 256 the code points that are not printable are
    the controls (0-31, 127-159), the no-break space and the soft hyphen. *)
Definition isprintable (a : ascii) : bool :=
  let n := N_of_ascii a in
  ((32 <=? n) && (n <=? 126) || (161 <=? n) && negb (n =? 173))%N.

Definition hexdigit (n : N) : ascii :=
  match String.get (N.to_nat n) "0123456789abcdef" with
  | Some a => a
  | None => "0"%char
  end.

(** One character of [repr(s)], between the quotes [quote]. *)
Definition repr_char (quote a : ascii) : string :=
  if Ascii.eqb a quote || Ascii.eqb a backslash then String backslash (String a "")
  else if Ascii.eqb a "009"%char then String backslash "t"
  else if Ascii.eqb a "010"%char then String backslash "n"
  else if Ascii.eqb a "013"%char then String backslash "r"
  else if isprintable a then String a ""
  else
    let n := N_of_ascii a in
    String backslash
      (String "x"%char (String (hexdigit (n / 16)) (String (hexdigit (n mod 16)) ""))).

Fixpoint escape (quote : ascii) (s : string) : string :=
  match s with
  | EmptyString => EmptyString
  | String a r => repr_char quote a +:+ escape quote r
  end.

(** [repr(s)]: between apostrophes, or between double quotes when [s] holds
    an apostrophe and no double quote. *)
Definition repr (s : string) : string :=
  let quote := if contains squote s && negb (contains dquote s) then dquote else squote in
  String quote (escape quote s +:+ String quote "").

End PyStr.

(** ** Values of the module's parameters

    [compress_level] is declared [type='str'], and the module tests it with
    [isinstance(compress_level, int)]: the value is kept with its Python
    type. *)

Inductive pyval :=
| PyString (s : string)
| PyInt (n : Z).

(** [COMPRESS_MAPPING] *)
Definition COMPRESS_MAPPING : gmap string Z :=
  {[ "default" := -1; "none" := 0; "fast" := 1; "best" := 9 ]}.

(** [COMPRESS_CHOICES] *)
Definition COMPRESS_CHOICES : list string :=
  [ "default"; "none"; "fast"; "best";
    "-1"; "0"; "1"; "2"; "3"; "4"; "5"; "6"; "7"; "8"; "9" ].

(** [compress_level in COMPRESS_MAPPING] and [COMPRESS_MAPPING[compress_level]]:
    an [int] is never equal to one of the [str] keys. *)
Definition mapping_get (c : pyval) : option Z :=
  match c with
  | PyString s => COMPRESS_MAPPING !! s
  | PyInt _ => None
  end.

(** Lines 190-195 of [run_module]: the resolved level, or the message handed
    to [fail_json]. *)
Definition resolve_compress_level (c : pyval) : string + Z :=
  match mapping_get c with
  | Some n => inr n
  | None =>
      match c with
      | PyString s => inl ("incorrect value for 'compress_level' option: " +:+ s)
      | PyInt n => inr n
      end
  end.

(** ** [os.path] (posixpath) *)

Module OsPath.

(** What [expanduser] and [expandvars] read from the process: the home
    directory of the invoking user ([$HOME], else the password database entry
    of the current uid), the password database for [~name], and the
    substitution of the references [$name] and [${name}] to environment
    variables by their values ([_varsub(repl, path)] in [expandvars]; which
    references it recognises has changed between versions of Python, and it
    is left to the environment). *)
Record env := {
  user_home : option string;
  passwd : list (string * string);
  varsub : string -> string
}.

(** [pwd.getpwnam(name).pw_dir]; [None] for the [KeyError] *)
Fixpoint getpwnam (db : list (string * string)) (name : string) : option string :=
  match db with
  | [] => None
  | (n, d) :: rest => if String.eqb n name then Some d else getpwnam rest name
  end.

(** [os.path.basename(p)]: [i = p.rfind('/') + 1; return p[i:]] *)
Definition basename (p : string) : string :=
  let i := PyStr.rfind PyStr.sep p + 1 in
  PyStr.slice_from i p.

(** [os.path.expanduser(path)] *)
Definition expanduser (e : env) (path : string) : string :=
  if negb (PyStr.startswith PyStr.tilde path) then path
  else
    let i := PyStr.find_from PyStr.sep 1 path in
    let i := if i <? 0 then PyStr.len path else i in
    let userhome :=
      if i =? 1 then user_home e
      else getpwnam (passwd e) (PyStr.slice 1 i path) in
    match userhome with
    | None => path
    | Some userhome =>
        let userhome := PyStr.rstrip PyStr.sep userhome in
        let r := userhome +:+ PyStr.slice_from i path in
        if String.eqb r "" then "/" else r
    end.


(** [os.path.normpath(path)] *)
Definition normpath (path : string) : string :=
  if String.eqb path "" then "."
  else
    let initial_slashes : nat :=
      if PyStr.startswith PyStr.sep path then
        if String.prefix "//" path && negb (String.prefix "///" path)
        then 2%nat else 1%nat
      else 0%nat in
    let comps := PyStr.split PyStr.sep path in
    let new_comps :=
      fold_left
        (fun new_comps comp =>
           if String.eqb comp "" || String.eqb comp "." then new_comps
           else if negb (String.eqb comp "..")
                   || Nat.eqb initial_slashes 0 && bool_decide (new_comps = [])
                   || bool_decide (last new_comps = Some "..")
                then new_comps ++ [comp]
                else removelast new_comps)
        comps [] in
    let path := PyStr.join PyStr.sep new_comps in
    let path := PyStr.replicate initial_slashes PyStr.sep +:+ path in
    if String.eqb path "" then "." else path.

End OsPath.

(** ** The process and its file system

    A file system is a finite map from absolute paths (lists of components,
    the root being [[]]) to nodes.  Symbolic links, permissions, time stamps
    and limits on the length of names are not modelled.  An archive is kept
    as the list of its entries rather than as bytes; [Unfinished] is what
    [zipfile] leaves when it is not closed to the end: local file headers
    without the central directory, which is no archive. *)

#[warnings="-register-all"]
Inductive node :=
| Dir
| Raw (bytes : string)
| Zip (level : Z) (entries : list (string * node))
| Unfinished.

Definition is_dir (n : node) : bool :=
  match n with
  | Dir => true
  | _ => false
  end.

(** The calls the module makes to the operating system and to [zipfile], in
    the order it makes them, each with what it answered. *)
Inductive event :=
| EChdir (d : string) (ok : bool)
| EExists (p : string) (found : bool)
| EZipOpen (f : string) (level : Z) (ok : bool)
| EZipWrite (p arcname : string) (ok : bool)
| EZipClose (f : string).

Inductive exn :=
| FileNotFoundError (p : string)
| NotADirectoryError (p : string)
| IsADirectoryError (p : string)
| ValueError (msg : string)
| IndexError (msg : string)
| OverflowError (msg : string).

(** [str(ex)]; an [OSError] prints its file name with [repr]. *)
Definition str_exn (ex : exn) : string :=
  match ex with
  | FileNotFoundError p => "[Errno 2] No such file or directory: " +:+ PyStr.repr p
  | NotADirectoryError p => "[Errno 20] Not a directory: " +:+ PyStr.repr p
  | IsADirectoryError p => "[Errno 21] Is a directory: " +:+ PyStr.repr p
  | ValueError msg | IndexError msg | OverflowError msg => msg
  end.

Inductive errno := ENOENT | ENOTDIR | EISDIR.

(** The [OSError] Python raises for an [errno] and a file name. *)
Definition OSError (n : errno) (p : string) : exn :=
  match n with
  | ENOENT => FileNotFoundError p
  | ENOTDIR => NotADirectoryError p
  | EISDIR => IsADirectoryError p
  end.

Record world := {
  w_env : OsPath.env;
  cwd : list string;
  fs : gmap (list string) node;
  trace : list event
}.

Definition set_cwd (d : list string) (w : world) : world :=
  {| w_env := w_env w; cwd := d; fs := fs w; trace := trace w |}.

Definition set_fs (m : gmap (list string) node) (w : world) : world :=
  {| w_env := w_env w; cwd := cwd w; fs := m; trace := trace w |}.

Definition add_events (es : list event) (w : world) : world :=
  {| w_env := w_env w; cwd := cwd w; fs := fs w; trace := trace w ++ es |}.

(** One component of a path, from the directory [cur]. *)
Definition step (cur : list string) (c : string) : list string :=
  if String.eqb c "" || String.eqb c "." then cur
  else if String.eqb c ".." then removelast cur
  else cur ++ [c].

(** Path lookup: every directory walked through has to be one. *)
Fixpoint namei (m : gmap (list string) node) (cur : list string)
    (comps : list string) : option (list string) :=
  match comps with
  | [] => Some cur
  | c :: rest =>
      match m !! cur with
      | Some Dir => namei m (step cur c) rest
      | _ => None
      end
  end.

(** Where the path [p] leads from the working directory [wd].  Python hands
    no path with an embedded null character to the operating system. *)
Definition locate (m : gmap (list string) node) (wd : list string)
    (p : string) : option (list string) :=
  if String.eqb p "" || PyStr.contains PyStr.NUL p then None
  else namei m (if PyStr.startswith PyStr.sep p then [] else wd)
         (PyStr.split PyStr.sep p).

Definition stat (m : gmap (list string) node) (wd : list string)
    (p : string) : option node :=
  match locate m wd p with
  | Some k => m !! k
  | None => None
  end.

Definition exists_in (m : gmap (list string) node) (wd : list string)
    (p : string) : bool :=
  match stat m wd p with
  | Some _ => true
  | None => false
  end.

(** Why a lookup does not arrive: the walk meets a name that is missing
    ([ENOENT]) or a file where it needs a directory ([ENOTDIR]).  When the
    file is to be created ([creat], the [O_CREAT] of [open]) and nothing but
    trailing separators is left of the path, the answer is [EISDIR]. *)
Fixpoint namei_errno (creat : bool) (m : gmap (list string) node)
    (cur : list string) (comps : list string) : errno :=
  match comps with
  | [] => ENOENT
  | c :: rest =>
      match m !! cur with
      | Some Dir => namei_errno creat m (step cur c) rest
      | Some _ => if creat && forallb (String.eqb "") comps then EISDIR else ENOTDIR
      | None => if creat && forallb (String.eqb "") comps then EISDIR else ENOENT
      end
  end.

(** The exception of a system call on the path [p] that leads nowhere. *)
Definition lookup_error (creat : bool) (m : gmap (list string) node)
    (wd : list string) (p : string) : exn :=
  if PyStr.contains PyStr.NUL p then ValueError "embedded null byte"
  else if String.eqb p "" then FileNotFoundError p
  else OSError (namei_errno creat m (if PyStr.startswith PyStr.sep p then [] else wd)
                  (PyStr.split PyStr.sep p)) p.

(** [os.stat(p)] *)
Definition os_stat (m : gmap (list string) node) (wd : list string)
    (p : string) : exn + node :=
  match stat m wd p with
  | Some n => inr n
  | None => inl (lookup_error false m wd p)
  end.

(** ** The module's parameters and result *)

Record params := {
  paths : list string;
  filename : string;
  chdir : option string;
  compress_level : pyval;
  flatten : bool;
  force : bool
}.

(** The [result] dictionary: [changed] and the six echoed parameters. *)
Record result := {
  changed : bool;
  echoed : params
}.

(** How [run_module] ends: [module.exit_json], [module.fail_json], or an
    exception that nothing catches. *)
Inductive outcome :=
| ExitJson (r : result)
| FailJson (msg : string) (r : result)
| Uncaught (ex : exn).

(** ** Statements: state, exits and exceptions *)

Inductive completion (A : Type) :=
| Normal (a : A)
| Abrupt (o : outcome).
Arguments Normal {A} a.
Arguments Abrupt {A} o.

Definition M (A : Type) : Type := world -> completion A * world.

Definition ret {A} (a : A) : M A := fun w => (Normal a, w).

Definition bind {A B} (m : M A) (k : A -> M B) : M B :=
  fun w =>
    match m w with
    | (Normal a, w') => k a w'
    | (Abrupt o, w') => (Abrupt o, w')
    end.

Notation "'let*' x ':=' m 'in' k" := (bind m (fun x => k))
  (at level 10, x name, m at level 100, k at level 200).
Notation "'run' m 'in' k" := (bind m (fun _ => k))
  (at level 10, m at level 100, k at level 200).

Definition exit_json {A} (r : result) : M A := fun w => (Abrupt (ExitJson r), w).
Definition fail_json {A} (msg : string) (r : result) : M A :=
  fun w => (Abrupt (FailJson msg r), w).
Definition raise {A} (ex : exn) : M A := fun w => (Abrupt (Uncaught ex), w).

(** [try: m except Exception as ex: h ex]; [SystemExit] is not an
    [Exception], so the exits of [exit_json] and [fail_json] pass through. *)
Definition try_except {A} (m : M A) (h : exn -> M A) : M A :=
  fun w =>
    match m w with
    | (Abrupt (Uncaught ex), w') => h ex w'
    | r => r
    end.

(** [try: m finally: f] *)
Definition finally {A} (m : M A) (f : M unit) : M A :=
  fun w =>
    match m w with
    | (c, w') =>
        match f w' with
        | (Normal _, w'') => (c, w'')
        | (Abrupt o, w'') => (Abrupt o, w'')
        end
    end.

Definition log (e : event) : M unit := fun w => (Normal tt, add_events [e] w).
Definition get_env : M OsPath.env := fun w => (Normal (w_env w), w).

(** ** Operating system and [zipfile] primitives *)

(** What [os.chdir(d)] does in a process: the new working directory, or the
    exception. *)
Definition chdir_target (m : gmap (list string) node) (wd : list string)
    (d : string) : exn + list string :=
  match locate m wd d with
  | Some k =>
      match m !! k with
      | Some Dir => inr k
      | Some _ => inl (NotADirectoryError d)
      | None => inl (FileNotFoundError d)
      end
  | None => inl (lookup_error false m wd d)
  end.

(** [os.chdir(d)] *)
Definition os_chdir (d : string) : M unit :=
  fun w =>
    match chdir_target (fs w) (cwd w) d with
    | inr k => (Normal tt, set_cwd k (add_events [EChdir d true] w))
    | inl ex => (Abrupt (Uncaught ex), add_events [EChdir d false] w)
    end.

(** [os.path.exists(p)] *)
Definition os_path_exists (p : string) : M bool :=
  fun w =>
    let found := exists_in (fs w) (cwd w) p in
    (Normal found, add_events [EExists p found] w).

(** [os.path.expanduser(p)] *)
Definition os_path_expanduser (p : string) : M string :=
  let* e := get_env in
  ret (OsPath.expanduser e p).

(** An open [zipfile.ZipFile]: where the archive is, and its
    [compresslevel]. *)
Record ZipFile := {
  zf_key : list string;
  zf_name : string;
  zf_level : Z
}.

(** [zipfile.ZipFile(f, mode='w', compression=ZIP_DEFLATED,
    compresslevel=level)]: [open(f, 'w+b')] creates the file, or truncates
    it; the archive has no entry yet. *)
Definition zip_open (f : string) (level : Z) : M ZipFile :=
  fun w =>
    match locate (fs w) (cwd w) f with
    | Some k =>
        match fs w !! k with
        | Some Dir =>
            (Abrupt (Uncaught (IsADirectoryError f)),
             add_events [EZipOpen f level false] w)
        | _ =>
            (Normal {| zf_key := k; zf_name := f; zf_level := level |},
             set_fs (<[k := Zip level []]> (fs w))
               (add_events [EZipOpen f level true] w))
        end
    | None =>
        (Abrupt (Uncaught (lookup_error true (fs w) (cwd w) f)),
         add_events [EZipOpen f level false] w)
    end.

(** The entry [name] with the content [n] added to the archive at [k];
    [name] is the name as [zipfile] stores it. *)
Definition add_entry (k : list string) (name : string) (n : node)
    (m : gmap (list string) node) : gmap (list string) node :=
  match m !! k with
  | Some (Zip level es) => <[k := Zip level (es ++ [(name, n)])]> m
  | _ => m
  end.

(** The name [ZipInfo.from_file] gives the entry for [arcname]: the path is
    normalised, its leading separators are dropped one by one (indexing an
    empty string when nothing else is there), a separator is appended for a
    directory, and [ZipInfo] ends the name at the first null character. *)
Definition stored_name (arcname : string) (isdir : bool) : exn + string :=
  let arcname := PyStr.lstrip PyStr.sep (OsPath.normpath arcname) in
  if String.eqb arcname "" then inl (IndexError "string index out of range")
  else
    let arcname := if isdir then arcname +:+ "/" else arcname in
    inr (PyStr.before PyStr.NUL arcname).

(** [zlib.compressobj(level, ...)]: the level is a C [int] from -1 to 9. *)
Definition compressobj (level : Z) : option exn :=
  if (level <? -2147483648) || (2147483647 <? level)
  then Some (OverflowError "Python int too large to convert to C int")
  else if (level <? -1) || (9 <? level)
  then Some (ValueError "Invalid initialization option")
  else None.

(** What [zf.write(p, arcname=arcname)] comes to: an entry is stored; or an
    exception is raised before anything is written; or one is raised when
    the header of the entry is written and its writing handle is open. *)
Inductive write_result :=
| Stored (name : string) (n : node)
| Refused (ex : exn)
| Aborted (ex : exn).

(** [zf.write(p, arcname=arcname)] at the level [level], as a function of
    the file system: [os.stat(p)]; the name of the entry; for a name that
    ends in a separator a directory entry, which has no content; for another
    the file is opened and compressed. *)
Definition zf_write (level : Z) (m : gmap (list string) node) (wd : list string)
    (p arcname : string) : write_result :=
  match os_stat m wd p with
  | inl ex => Refused ex
  | inr n =>
      match stored_name arcname (is_dir n) with
      | inl ex => Refused ex
      | inr name =>
          if String.eqb name "" then Refused (IndexError "string index out of range")
          else if PyStr.endswith PyStr.sep name then Stored name Dir
          else
            match n with
            | Dir => Refused (IsADirectoryError p)
            | _ =>
                match compressobj level with
                | Some ex => Aborted ex
                | None => Stored name n
                end
            end
      end
  end.

(** [zf.write(p, arcname=arcname)] *)
Definition zip_write (zf : ZipFile) (p arcname : string) : M unit :=
  fun w =>
    match zf_write (zf_level zf) (fs w) (cwd w) p arcname with
    | Stored name n =>
        (Normal tt,
         set_fs (add_entry (zf_key zf) name n (fs w))
           (add_events [EZipWrite p arcname true] w))
    | Refused ex =>
        (Abrupt (Uncaught ex), add_events [EZipWrite p arcname false] w)
    | Aborted ex =>
        (Abrupt (Uncaught ex),
         set_fs (<[zf_key zf := Unfinished]> (fs w))
           (add_events [EZipWrite p arcname false] w))
    end.

(** [zf.close()]: the central directory is written, unless a writing handle
    is open. *)
Definition zip_close (zf : ZipFile) : M unit :=
  fun w =>
    match fs w !! zf_key zf with
    | Some Unfinished =>
        (Abrupt (Uncaught (ValueError
           ("Can't close the ZIP file while there is an open writing handle on it. "
            +:+ "Close the writing handle before closing the zip."))),
         add_events [EZipClose (zf_name zf)] w)
    | _ => (Normal tt, add_events [EZipClose (zf_name zf)] w)
    end.

(** [with zipfile.ZipFile(f, ...) as zf: body zf] *)
Definition with_ZipFile {A} (f : string) (level : Z) (body : ZipFile -> M A) : M A :=
  let* zf := zip_open f level in
  finally (body zf) (zip_close zf).

(** ** [run_module] *)

(** A Python [dict] with [str] keys: the items in insertion order; assigning
    to a key that is present replaces its value in place. *)
Fixpoint dict_set (k v : string) (d : list (string * string)) : list (string * string) :=
  match d with
  | [] => [(k, v)]
  | (k', v') :: rest =>
      if String.eqb k' k then (k', v) :: rest
      else (k', v') :: dict_set k v rest
  end.

(** [d.get(k)] *)
Fixpoint dict_get (k : string) (d : list (string * string)) : option string :=
  match d with
  | [] => None
  | (k', v') :: rest => if String.eqb k' k then Some v' else dict_get k rest
  end.

(** The truth value of [chdir]: [None] and [''] are false. *)
Definition truthy (c : option string) : bool :=
  match c with
  | Some s => negb (String.eqb s "")
  | None => false
  end.

(** Lines 181-186: the archive name of an expanded path. *)
Definition archive_name (flatten : bool) (path : string) : string :=
  if flatten then OsPath.basename path
  else PyStr.lstrip PyStr.sep path.

(** Lines 175-186: the loop over [paths], from the dictionary built so far. *)
Fixpoint collect_paths (flatten : bool) (result : result) (paths : list string)
    (archive_paths : list (string * string)) : M (list (string * string)) :=
  match paths with
  | [] => ret archive_paths
  | path :: rest =>
      let* found := os_path_exists path in
      if negb found then
        fail_json ("path does not exist: " +:+ path) result
      else
        let* path := os_path_expanduser path in
        collect_paths flatten result rest
          (dict_set path (archive_name flatten path) archive_paths)
  end.

(** Lines 199-200: the loop over [archive_paths.items()]. *)
Fixpoint write_items (zipped_file : ZipFile) (items : list (string * string)) : M unit :=
  match items with
  | [] => ret tt
  | (path, archive_path) :: rest =>
      run zip_write zipped_file path archive_path in
      write_items zipped_file rest
  end.

Definition set_changed (b : bool) (r : result) : result :=
  {| changed := b; echoed := echoed r |}.

(** [run_module], from the parsed [module.params]. *)
Definition run_module (prm : params) : M Empty_set :=
  let paths := paths prm in
  let chdir := chdir prm in
  let compress_level := compress_level prm in
  let flatten := flatten prm in
  let force := force prm in
  let* filename := os_path_expanduser (filename prm) in
  let* chdir :=
    (match chdir with
     | Some d =>
         if truthy chdir then
           let* d := os_path_expanduser d in ret (Some d)
         else ret chdir
     | None => ret chdir
     end) in
  let result :=
    {| changed := false;
       echoed := {| paths := paths; filename := filename; chdir := chdir;
                    compress_level := compress_level; flatten := flatten;
                    force := force |} |} in
  run (match chdir with
       | Some d =>
           if truthy chdir then
             try_except (os_chdir d) (fun ex => fail_json (str_exn ex) result)
           else ret tt
       | None => ret tt
       end) in
  let* present := (if negb force then os_path_exists filename else ret false) in
  run (if negb force && present then exit_json result else ret tt) in
  let* archive_paths := collect_paths flatten result paths [] in
  let* compress_level :=
    (match resolve_compress_level compress_level with
     | inr n => ret n
     | inl msg => fail_json msg result
     end) in
  run with_ZipFile filename compress_level
        (fun zipped_file => write_items zipped_file archive_paths) in
  exit_json (set_changed true result).

(** The outcome of an invocation and the process it leaves. *)
Definition invoke (prm : params) (w : world) : outcome * world :=
  match run_module prm w with
  | (Normal e, _) => match e with end
  | (Abrupt o, w') => (o, w')
  end.

(** The calls made by an invocation started in [w]. *)
Definition calls (prm : params) (w : world) : list event :=
  drop (List.length (trace w)) (trace (invoke prm w).2).

(** The result dictionary an invocation hands over, if it hands one over. *)
Definition result_of (o : outcome) : option result :=
  match o with
  | ExitJson r | FailJson _ r => Some r
  | Uncaught _ => None
  end.

(** ** [module.params]

    [module_args] (lines 126-133) declares [filename] and [chdir] of type
    ['path'] and the elements of [paths] of type ['path']: before
    [run_module] reads them (lines 141-147), [AnsibleModule] has passed each
    through [check_type_path].  A [chdir] left out keeps its default [None].
    The other options are taken as they arrive. *)




(** ** What the stages compute

    The two loops and the working-directory change, as functions of the
    file system; the lemmas below relate them to [run_module]. *)

(** The dictionary the loop of lines 175-186 builds over existing paths. *)
Fixpoint mapping (flatten : bool) (e : OsPath.env) (paths : list string)
    (acc : list (string * string)) : list (string * string) :=
  match paths with
  | [] => acc
  | p :: rest =>
      let path := OsPath.expanduser e p in
      mapping flatten e rest (dict_set path (archive_name flatten path) acc)
  end.

(** The first element of [paths] that [os.path.exists] rejects. *)
Fixpoint first_missing (m : gmap (list string) node) (wd : list string)
    (paths : list string) : option string :=
  match paths with
  | [] => None
  | p :: rest => if exists_in m wd p then first_missing m wd rest else Some p
  end.

(** The existence checks of the loop, up to the first that fails. *)
Fixpoint checks (m : gmap (list string) node) (wd : list string)
    (paths : list string) : list event :=
  match paths with
  | [] => []
  | p :: rest =>
      let found := exists_in m wd p in
      EExists p found :: (if found then checks m wd rest else [])
  end.

(** [chdir] after line 150. *)
Definition expanded_chdir (e : OsPath.env) (c : option string) : option string :=
  match c with
  | Some d => if truthy c then Some (OsPath.expanduser e d) else c
  | None => None
  end.

(** The [result] dictionary of lines 152-160. *)
Definition initial_result (prm : params) (e : OsPath.env) : result :=
  {| changed := false;
     echoed := {| paths := paths prm;
                  filename := OsPath.expanduser e (filename prm);
                  chdir := expanded_chdir e (chdir prm);
                  compress_level := compress_level prm;
                  flatten := flatten prm;
                  force := force prm |} |}.

(** Lines 164-168: the directory the process works in afterwards, or the
    exception of [os.chdir]. *)
Definition workdir (prm : params) (w : world) : exn + list string :=
  match expanded_chdir (w_env w) (chdir prm) with
  | Some d =>
      if truthy (expanded_chdir (w_env w) (chdir prm))
      then chdir_target (fs w) (cwd w) d
      else inr (cwd w)
  | None => inr (cwd w)
  end.

(** The events of the chdir of lines 164-168. *)
Definition chdir_events (prm : params) (w : world) : list event :=
  match expanded_chdir (w_env w) (chdir prm) with
  | Some d =>
      if truthy (expanded_chdir (w_env w) (chdir prm))
      then [EChdir d (match workdir prm w with inl _ => false | inr _ => true end)]
      else []
  | None => []
  end.

(** The existence check of line 170, which [force] skips. *)
Definition guard_events (prm : params) (w : world) (k : list string) : list event :=
  let f := OsPath.expanduser (w_env w) (filename prm) in
  if force prm then [] else [EExists f (exists_in (fs w) k f)].

(** The paths handed to [zf.write], in order. *)
Definition written (es : list event) : list string :=
  omap (fun e => match e with EZipWrite p _ _ => Some p | _ => None end) es.

Definition is_zip_event (e : event) : bool :=
  match e with
  | EZipOpen _ _ _ | EZipWrite _ _ _ | EZipClose _ => true
  | _ => false
  end.

Definition write_ok (it : string * string) : event := EZipWrite it.1 it.2 true.

(** The calls of the archive stage (lines 197-200) on the items [items]:
    the archive cannot be opened, or a write fails and the archive is
    closed, or every item is written ([ok]). *)
Inductive zip_calls (f : string) (lvl : Z) (items : list (string * string)) :
    bool -> list event -> Prop :=
| zip_open_failed :
    zip_calls f lvl items false [EZipOpen f lvl false]
| zip_write_failed n p a :
    items !! n = Some (p, a) ->
    zip_calls f lvl items false
      (EZipOpen f lvl true :: map write_ok (take n items)
         ++ [EZipWrite p a false; EZipClose f])
| zip_done :
    zip_calls f lvl items true
      (EZipOpen f lvl true :: map write_ok items ++ [EZipClose f]).

(** [result['changed']] as the caller receives it; an invocation that dies
    of an exception hands over no result. *)
Definition reported_changed (o : outcome) : bool :=
  match o with
  | ExitJson r | FailJson _ r => changed r
  | Uncaught _ => false
  end.

(** A component of a path that [normpath] keeps, when the path does not
    hold the character [x]. *)
Definition kept (x : ascii) (comp : string) : Prop :=
  comp <> "" /\ PyStr.contains PyStr.sep comp = false /\ PyStr.contains x comp = false.

(** ** A small file system

    [/home/u/f], [/work/a.txt], [/work/sub/b.txt] and an older
    [/work/out.zip]; the process starts in [/work] as user [u], whose home
    directory is [/home/u], with no environment variable set. *)

Definition demo_env : OsPath.env :=
  {| OsPath.user_home := Some "/home/u"; OsPath.passwd := [("bob", "/home/bob/")];
     OsPath.varsub := fun path => path |}.

Definition demo_fs : gmap (list string) node :=
  list_to_map
    [ ([], Dir);
      (["home"], Dir);
      (["home"; "u"], Dir);
      (["home"; "u"; "f"], Raw "data");
      (["work"], Dir);
      (["work"; "a.txt"], Raw "A");
      (["work"; "sub"], Dir);
      (["work"; "sub"; "b.txt"], Raw "B");
      (["work"; "out.zip"], Raw "old") ].

Definition demo_world : world :=
  {| w_env := demo_env; cwd := ["work"]; fs := demo_fs; trace := [] |}.

(** The same with a directory named [~] in [/work], holding a file [f]. *)
Definition tilde_world : world :=
  {| w_env := demo_env; cwd := ["work"];
     fs := <[ ["work"; "~"] := Dir ]>
             (<[ ["work"; "~"; "f"] := Raw "other" ]> demo_fs);
     trace := [] |}.

(** The end-to-end scenario: two files into [new.zip]. *)
Definition demo_params : params :=
  {| paths := ["a.txt"; "sub/b.txt"]; filename := "new.zip"; chdir := None;
     compress_level := PyString "default"; flatten := false; force := true |}.

Definition with_paths (ps : list string) (prm : params) : params :=
  {| paths := ps; filename := filename prm; chdir := chdir prm;
     compress_level := compress_level prm; flatten := flatten prm;
     force := force prm |}.

Definition with_filename (f : string) (prm : params) : params :=
  {| paths := paths prm; filename := f; chdir := chdir prm;
     compress_level := compress_level prm; flatten := flatten prm;
     force := force prm |}.

Definition with_chdir (c : option string) (prm : params) : params :=
  {| paths := paths prm; filename := filename prm; chdir := c;
     compress_level := compress_level prm; flatten := flatten prm;
     force := force prm |}.

Definition with_compress_level (c : pyval) (prm : params) : params :=
  {| paths := paths prm; filename := filename prm; chdir := chdir prm;
     compress_level := c; flatten := flatten prm; force := force prm |}.

Definition with_flatten (b : bool) (prm : params) : params :=
  {| paths := paths prm; filename := filename prm; chdir := chdir prm;
     compress_level := compress_level prm; flatten := b; force := force prm |}.

Definition with_force (b : bool) (prm : params) : params :=
  {| paths := paths prm; filename := filename prm; chdir := chdir prm;
     compress_level := compress_level prm; flatten := flatten prm; force := b |}.

(** ** The archive an invocation leaves *)

(** What the loop of lines 199-200 stores when every [zf.write] succeeds, the
    sources being read from the file system [m] in the directory [wd]; [None]
    when a write raises. *)
Fixpoint entries_of (level : Z) (m : gmap (list string) node)
    (wd : list string) (items : list (string * string))
    : option (list (string * node)) :=
  match items with
  | [] => Some []
  | (p, a) :: rest =>
      match zf_write level m wd p a with
      | Stored name n =>
          match entries_of level m wd rest with
          | Some es => Some ((name, n) :: es)
          | None => None
          end
      | _ => None
      end
  end.

(** ** Strings *)

Section strings.
Import PyStr.

Lemma rfind_ge (c : ascii) (s : string) : -1 <= rfind c s.
Proof.
  induction s as [|a r IH]; simpl; [lia|].
  destruct (0 <=? rfind c r) eqn:E; [apply Z.leb_le in E; lia|].
  destruct (Ascii.eqb a c); lia.
Qed.

Lemma rfind_absent (c : ascii) (s : string) :
  rfind c s < 0 -> contains c s = false.
Proof.
  induction s as [|a r IH]; simpl; [done|].
  destruct (0 <=? rfind c r) eqn:E.
  - apply Z.leb_le in E. lia.
  - apply Z.leb_gt in E. destruct (Ascii.eqb a c); [lia|].
    intros _. simpl. auto.
Qed.

Lemma basename_no_sep (p : string) :
  contains sep (OsPath.basename p) = false.
Proof.
  unfold OsPath.basename, slice_from.
  induction p as [|a r IH]; simpl; [done|].
  destruct (0 <=? rfind sep r) eqn:E.
  - apply Z.leb_le in E.
    replace (Z.to_nat (rfind sep r + 1 + 1))
      with (S (Z.to_nat (rfind sep r + 1))) by lia.
    simpl. exact IH.
  - apply Z.leb_gt in E. pose proof (rfind_absent sep r E) as Hr.
    destruct (Ascii.eqb a sep) eqn:Ea; simpl.
    + exact Hr.
    + rewrite Ea, Hr. done.
Qed.

Lemma append_cons (a : ascii) (s t : string) :
  String a s +:+ t = String a (s +:+ t).
Proof. reflexivity. Qed.

Lemma lstrip_decompose (c : ascii) (s : string) :
  s = replicate (leading c s) c +:+ lstrip c s.
Proof.
  induction s as [|a r IH]; simpl; [done|].
  destruct (Ascii.eqb a c) eqn:E; simpl; [|done].
  apply Ascii.eqb_eq in E. rewrite E, append_cons. f_equal. exact IH.
Qed.

Lemma lstrip_no_leading (c : ascii) (s : string) :
  startswith c (lstrip c s) = false.
Proof.
  induction s as [|a r IH]; simpl; [done|].
  destruct (Ascii.eqb a c) eqn:E; simpl; [done | exact E].
Qed.

Lemma lstrip_inj (c : ascii) (s t : string) :
  leading c s = leading c t -> lstrip c s = lstrip c t -> s = t.
Proof.
  intros Hn Hs.
  rewrite (lstrip_decompose c s), (lstrip_decompose c t).
  by rewrite Hn, Hs.
Qed.

Lemma lstrip_relative (c : ascii) (s : string) :
  startswith c s = false -> lstrip c s = s.
Proof. destruct s as [|a r]; simpl; [done|]. by intros ->. Qed.

End strings.

(** ** Dictionaries *)

Lemma dict_get_set_eq (k v : string) (d : list (string * string)) :
  dict_get k (dict_set k v d) = Some v.
Proof.
  induction d as [|[k' v'] d IH]; simpl.
  - by rewrite String.eqb_refl.
  - destruct (String.eqb k' k) eqn:E; simpl; rewrite E; done.
Qed.

Lemma dict_get_set_ne (k k' v : string) (d : list (string * string)) :
  k <> k' -> dict_get k' (dict_set k v d) = dict_get k' d.
Proof.
  intros Hne. induction d as [|[k0 v0] d IH]; simpl.
  - apply String.eqb_neq in Hne. by rewrite Hne.
  - destruct (String.eqb k0 k) eqn:E; simpl.
    + apply String.eqb_eq in E. subst k0.
      apply String.eqb_neq in Hne. by rewrite Hne.
    + by rewrite IH.
Qed.

Lemma dict_set_keys (k v : string) (d : list (string * string)) :
  forall x, x ∈ (dict_set k v d).*1 <-> x = k \/ x ∈ d.*1.
Proof.
  intros x. induction d as [|[k' v'] d IH]; simpl.
  - rewrite list_elem_of_singleton, elem_of_nil. tauto.
  - destruct (String.eqb k' k) eqn:E; simpl.
    + apply String.eqb_eq in E. subst k'. rewrite !elem_of_cons. tauto.
    + rewrite !elem_of_cons, IH. tauto.
Qed.

Lemma dict_set_NoDup (k v : string) (d : list (string * string)) :
  NoDup d.*1 -> NoDup (dict_set k v d).*1.
Proof.
  induction d as [|[k' v'] d IH]; simpl; intros Hnd.
  - apply NoDup_singleton.
  - destruct (String.eqb k' k) eqn:E; simpl; [done|].
    apply NoDup_cons in Hnd as [Hin Hnd]. apply NoDup_cons. split; [|auto].
    rewrite dict_set_keys. apply String.eqb_neq in E. intros [->|?]; done.
Qed.

Lemma mapping_NoDup (fl : bool) (e : OsPath.env) (ps : list string)
    (acc : list (string * string)) :
  NoDup acc.*1 -> NoDup (mapping fl e ps acc).*1.
Proof.
  revert acc. induction ps as [|p ps IH]; simpl; intros acc Hnd; [done|].
  apply IH. by apply dict_set_NoDup.
Qed.

Lemma mapping_keys (fl : bool) (e : OsPath.env) (ps : list string)
    (acc : list (string * string)) (x : string) :
  x ∈ (mapping fl e ps acc).*1 <->
  x ∈ acc.*1 \/ exists src, src ∈ ps /\ x = OsPath.expanduser e src.
Proof.
  revert acc. induction ps as [|p ps IH]; simpl; intros acc.
  - split; [auto|]. intros [?|(src & Hin & _)]; [done|]. by apply elem_of_nil in Hin.
  - rewrite IH, dict_set_keys. split.
    + intros [[->|?]|(src & Hin & ->)]; [right|left|right]; eauto.
      * exists p. split; [apply elem_of_cons; auto|done].
      * exists src. split; [apply elem_of_cons; auto|done].
    + intros [?|(src & Hin & ->)]; [auto|].
      apply elem_of_cons in Hin as [->|Hin]; [auto|]. right. eauto.
Qed.

Lemma mapping_lookup_keep (fl : bool) (e : OsPath.env) (ps : list string)
    (acc : list (string * string)) (k : string) :
  dict_get k acc = Some (archive_name fl k) ->
  dict_get k (mapping fl e ps acc) = Some (archive_name fl k).
Proof.
  revert acc. induction ps as [|p ps IH]; simpl; intros acc Hk; [done|].
  apply IH. destruct (decide (OsPath.expanduser e p = k)) as [->|Hne].
  - apply dict_get_set_eq.
  - by rewrite dict_get_set_ne.
Qed.

Lemma mapping_lookup_src (fl : bool) (e : OsPath.env) (ps : list string)
    (acc : list (string * string)) (src : string) :
  src ∈ ps ->
  dict_get (OsPath.expanduser e src) (mapping fl e ps acc)
  = Some (archive_name fl (OsPath.expanduser e src)).
Proof.
  revert acc. induction ps as [|p ps IH]; simpl; intros acc Hin.
  - by apply elem_of_nil in Hin.
  - apply elem_of_cons in Hin as [->|Hin]; [|by apply IH].
    apply mapping_lookup_keep, dict_get_set_eq.
Qed.

Lemma mapping_item_source (fl : bool) (e : OsPath.env) (ps : list string)
    (it : string * string) :
  it ∈ mapping fl e ps [] ->
  exists src, src ∈ ps /\ it.1 = OsPath.expanduser e src.
Proof.
  intros Hit.
  assert (Hk : it.1 ∈ (mapping fl e ps []).*1).
  { apply list_elem_of_fmap. eauto. }
  apply mapping_keys in Hk as [Hk|Hk]; [by apply elem_of_nil in Hk|done].
Qed.

(** ** Execution *)

Lemma add_events_nil (w : world) : add_events [] w = w.
Proof. destruct w. unfold add_events. simpl. by rewrite app_nil_r. Qed.

Lemma add_events_app (es1 es2 : list event) (w : world) :
  add_events es2 (add_events es1 w) = add_events (es1 ++ es2) w.
Proof. unfold add_events. simpl. by rewrite app_assoc. Qed.

Lemma set_cwd_same (w : world) : set_cwd (cwd w) w = w.
Proof. by destruct w. Qed.

Lemma add_events_set_cwd (es : list event) (k : list string) (w : world) :
  add_events es (set_cwd k w) = set_cwd k (add_events es w).
Proof. reflexivity. Qed.

Lemma collect_paths_eq (fl : bool) (r : result) (ps : list string)
    (acc : list (string * string)) (w : world) :
  collect_paths fl r ps acc w =
  (match first_missing (fs w) (cwd w) ps with
   | None => Normal (mapping fl (w_env w) ps acc)
   | Some p => Abrupt (FailJson ("path does not exist: " +:+ p) r)
   end,
   add_events (checks (fs w) (cwd w) ps) w).
Proof.
  revert acc w. induction ps as [|p ps IH]; intros acc w; simpl.
  - unfold ret. by rewrite add_events_nil.
  - unfold bind, os_path_exists.
    destruct (exists_in (fs w) (cwd w) p) eqn:E; simpl.
    + unfold os_path_expanduser, bind, get_env, ret. simpl.
      rewrite IH. simpl. by rewrite add_events_app.
    + reflexivity.
Qed.


Lemma expanduser_nonempty (e : OsPath.env) (s : string) :
  s <> "" -> OsPath.expanduser e s <> "".
Proof.
  intros Hs. unfold OsPath.expanduser.
  destruct (negb (PyStr.startswith PyStr.tilde s)); [done|].
  match goal with |- context [match ?u with Some _ => _ | None => _ end] =>
    destruct u as [h|]; [|done] end.
  cbv zeta.
  match goal with |- context [String.eqb ?r ""] =>
    destruct (String.eqb r "") eqn:E; [done|] end.
  by apply String.eqb_neq in E.
Qed.

Ltac run_tail :=
  repeat rewrite add_events_nil; repeat rewrite set_cwd_same;
  destruct (force _); simpl;
  repeat match goal with
  | |- context [if exists_in ?m ?k ?f then _ else _] =>
          destruct (exists_in m k f) eqn:?; simpl
  end;
  try reflexivity;
  rewrite collect_paths_eq; simpl;
  repeat rewrite add_events_app; simpl;
  destruct (first_missing _ _ _); simpl; try reflexivity;
  destruct (resolve_compress_level _); simpl; try reflexivity;
  match goal with |- context [with_ZipFile ?f ?n ?b ?w] =>
    destruct (with_ZipFile f n b w) as [[[]|o] w3] end;
  reflexivity.
Lemma invoke_unfold (prm : params) (w : world) :
  invoke prm w =
  let e := w_env w in
  let r := initial_result prm e in
  let f := OsPath.expanduser e (filename prm) in
  match workdir prm w with
  | inl ex => (FailJson (str_exn ex) r, add_events (chdir_events prm w) w)
  | inr k =>
      let w1 := set_cwd k (add_events (chdir_events prm w) w) in
      if negb (force prm) && exists_in (fs w) k f
      then (ExitJson r, add_events (guard_events prm w k) w1)
      else
        let w2 :=
          add_events (guard_events prm w k ++ checks (fs w) k (paths prm)) w1 in
        match first_missing (fs w) k (paths prm) with
        | Some p => (FailJson ("path does not exist: " +:+ p) r, w2)
        | None =>
            match resolve_compress_level (compress_level prm) with
            | inl msg => (FailJson msg r, w2)
            | inr n =>
                match with_ZipFile f n
                        (fun zf => write_items zf
                                     (mapping (flatten prm) e (paths prm) [])) w2
                with
                | (Normal _, w3) => (ExitJson (set_changed true r), w3)
                | (Abrupt o, w3) => (o, w3)
                end
            end
        end
  end.
Proof.
  unfold invoke, run_module, chdir_events, guard_events, workdir, initial_result.
  unfold bind, os_path_expanduser, get_env, ret, expanded_chdir, bind,
    os_path_exists, exit_json, fail_json.
  simpl.
  destruct (chdir prm) as [d|] eqn:Hc; simpl.
  - destruct (String.eqb d "") eqn:Hd; simpl.
    + rewrite Hd. simpl. run_tail.
    + apply String.eqb_neq in Hd.
      pose proof (expanduser_nonempty (w_env w) d Hd) as Hne.
      apply String.eqb_neq in Hne. rewrite Hne. simpl.
      unfold try_except, os_chdir.
      destruct (chdir_target (fs w) (cwd w) (OsPath.expanduser (w_env w) d)) as [ex|k].
      * reflexivity.
      * simpl. run_tail.
  - run_tail.
Qed.

(** *** The archive stage *)

Lemma add_entry_other (k k' : list string) (a : string) (n : node)
    (m : gmap (list string) node) :
  k' <> k -> add_entry k a n m !! k' = m !! k'.
Proof.
  intros Hne. unfold add_entry.
  destruct (m !! k) as [[| |lvl es|]|]; try done.
  by rewrite lookup_insert_ne.
Qed.

Lemma write_items_spec (zf : ZipFile) (items : list (string * string)) (w : world) :
  let '(c, w') := write_items zf items w in
  w_env w' = w_env w /\ cwd w' = cwd w /\
  (forall k, k <> zf_key zf -> fs w' !! k = fs w !! k) /\
  match c with
  | Normal _ => trace w' = trace w ++ map write_ok items
  | Abrupt o =>
      exists ex n p a,
        o = Uncaught ex /\ items !! n = Some (p, a) /\
        trace w' = trace w ++ map write_ok (take n items) ++ [EZipWrite p a false]
  end.
Proof.
  revert w. induction items as [|[p a] items IH]; intros w; simpl.
  - unfold ret. repeat split; auto. by rewrite app_nil_r.
  - unfold bind, zip_write.
    destruct (zf_write (zf_level zf) (fs w) (cwd w) p a) as [name n|ex|ex] eqn:Hsrc.
    + specialize (IH (set_fs (add_entry (zf_key zf) name n (fs w))
                        (add_events [EZipWrite p a true] w))).
      destruct (write_items zf items _) as [c w'].
      destruct IH as (He & Hc & Hfs & Htr). simpl in *.
      repeat split; auto.
      * intros k Hk. rewrite Hfs by done. by apply add_entry_other.
      * destruct c as [[]|o].
        -- rewrite Htr, <- app_assoc. done.
        -- destruct Htr as (ex & i & q & b & -> & Hi & Htr).
           exists ex, (S i), q, b. simpl. repeat split; auto.
           rewrite Htr, <- app_assoc. done.
    + repeat split; auto. exists ex, 0%nat, p, a. simpl. auto.
    + repeat split; auto.
      * intros k Hk. simpl. by rewrite lookup_insert_ne.
      * exists ex, 0%nat, p, a. simpl. auto.
Qed.

(** While no write fails, the destination stays an archive at its level. *)
Lemma write_items_keeps_zip (zf : ZipFile) (items : list (string * string))
    (w : world) (lvl : Z) (es : list (string * node)) :
  fs w !! zf_key zf = Some (Zip lvl es) ->
  match (write_items zf items w).1 with
  | Normal _ =>
      exists es', fs (write_items zf items w).2 !! zf_key zf = Some (Zip lvl es')
  | Abrupt _ => True
  end.
Proof.
  revert w es. induction items as [|[p a] items IH]; intros w es Hk; simpl.
  - eauto.
  - unfold bind, zip_write.
    destruct (zf_write (zf_level zf) (fs w) (cwd w) p a) as [name n|ex|ex];
      simpl; [|done|done].
    eapply IH. simpl. unfold add_entry. rewrite Hk. apply lookup_insert_eq.
Qed.

Lemma with_ZipFile_spec (f : string) (lvl : Z) (items : list (string * string))
    (w : world) :
  let '(c, w') := with_ZipFile f lvl (fun zf => write_items zf items) w in
  w_env w' = w_env w /\ cwd w' = cwd w /\
  match c with
  | Normal _ =>
      trace w' = trace w ++ EZipOpen f lvl true :: map write_ok items ++ [EZipClose f]
  | Abrupt o =>
      exists ex, o = Uncaught ex /\
        ((trace w' = trace w ++ [EZipOpen f lvl false] /\ fs w' = fs w) \/
         (exists n p a, items !! n = Some (p, a) /\
            trace w' = trace w ++ EZipOpen f lvl true :: map write_ok (take n items)
                         ++ [EZipWrite p a false; EZipClose f]))
  end.
Proof.
  unfold with_ZipFile, bind, zip_open.
  assert (Hgo : forall k,
    let zf := {| zf_key := k; zf_name := f; zf_level := lvl |} in
    let w1 := set_fs (<[k := Zip lvl []]> (fs w)) (add_events [EZipOpen f lvl true] w) in
    let '(c, w') := finally (write_items zf items) (zip_close zf) w1 in
    w_env w' = w_env w /\ cwd w' = cwd w /\
    match c with
    | Normal _ =>
        trace w' = trace w ++ EZipOpen f lvl true :: map write_ok items ++ [EZipClose f]
    | Abrupt o =>
        exists ex, o = Uncaught ex /\
          ((trace w' = trace w ++ [EZipOpen f lvl false] /\ fs w' = fs w) \/
           (exists n p a, items !! n = Some (p, a) /\
              trace w' = trace w ++ EZipOpen f lvl true :: map write_ok (take n items)
                           ++ [EZipWrite p a false; EZipClose f]))
    end).
  { intros k zf w1. unfold finally, zip_close.
    pose proof (write_items_spec zf items w1) as H.
    pose proof (write_items_keeps_zip zf items w1 lvl []) as Hz.
    destruct (write_items zf items w1) as [c w'].
    destruct H as (He & Hc & _ & Htr). simpl in *.
    destruct c as [[]|o].
    - destruct Hz as [es' Hz]; [apply lookup_insert_eq|]. rewrite Hz. simpl.
      repeat split; auto. rewrite Htr, <- !app_assoc. done.
    - destruct Htr as (ex & n & p & a & -> & Hn & Htr).
      assert (Htr' : trace w' ++ [EZipClose f]
                     = trace w ++ EZipOpen f lvl true :: map write_ok (take n items)
                         ++ [EZipWrite p a false; EZipClose f]).
      { rewrite Htr, <- !app_assoc. simpl. done. }
      destruct (fs w' !! k) as [[| | |]|]; simpl; repeat split; auto;
        eexists; (split; [done|]); right; exists n, p, a; done. }
  destruct (locate (fs w) (cwd w) f) as [k|].
  - destruct (fs w !! k) as [[| | |]|] eqn:Hk; try apply Hgo.
    simpl. repeat split; auto. eexists. split; [done|]. by left.
  - simpl. repeat split; auto. eexists. split; [done|]. by left.
Qed.

Lemma calls_of_trace (prm : params) (w : world) (es : list event) :
  trace (invoke prm w).2 = trace w ++ es -> calls prm w = es.
Proof. unfold calls. intros ->. by rewrite drop_app_length. Qed.

(** ** Compression resolution *)

Lemma resolve_symbolic :
  resolve_compress_level (PyString "default") = inr (-1) /\
  resolve_compress_level (PyString "none") = inr 0 /\
  resolve_compress_level (PyString "fast") = inr 1 /\
  resolve_compress_level (PyString "best") = inr 9.
Proof. repeat split; vm_compute; reflexivity. Qed.

Lemma resolve_unmapped_string (s : string) :
  COMPRESS_MAPPING !! s = None ->
  resolve_compress_level (PyString s)
  = inl ("incorrect value for 'compress_level' option: " +:+ s).
Proof. intros H. unfold resolve_compress_level. simpl. by rewrite H. Qed.

Lemma resolve_int (n : Z) : resolve_compress_level (PyInt n) = inr n.
Proof. reflexivity. Qed.

(** C1.  The symbolic tokens resolve to -1, 0, 1 and 9 and ["banana"] is
    refused with a message naming it, but the numeric string ["5"], one of
    [COMPRESS_CHOICES], is refused in the same way instead of resolving to
    5: [compress_level] is a [str], for which
    [isinstance(compress_level, int)] is false. *)
Theorem numeric_string_level_rejected :
  resolve_compress_level (PyString "default") = inr (-1) /\
  resolve_compress_level (PyString "none") = inr 0 /\
  resolve_compress_level (PyString "fast") = inr 1 /\
  resolve_compress_level (PyString "best") = inr 9 /\
  resolve_compress_level (PyString "banana")
    = inl "incorrect value for 'compress_level' option: banana" /\
  "5" ∈ COMPRESS_CHOICES /\
  resolve_compress_level (PyString "5")
    = inl "incorrect value for 'compress_level' option: 5" /\
  (invoke (with_compress_level (PyString "5") demo_params) demo_world).1
    = FailJson "incorrect value for 'compress_level' option: 5"
        (initial_result (with_compress_level (PyString "5") demo_params) demo_env).
Proof.
  repeat split; try (vm_compute; reflexivity).
  apply list_elem_of_In. vm_compute. tauto.
Qed.

(** ** The calls of an invocation *)

Lemma with_ZipFile_calls (f : string) (lvl : Z) (items : list (string * string))
    (w : world) :
  exists ok zs,
    zip_calls f lvl items ok zs /\
    trace (with_ZipFile f lvl (fun zf => write_items zf items) w).2 = trace w ++ zs /\
    match (with_ZipFile f lvl (fun zf => write_items zf items) w).1 with
    | Normal _ => ok = true
    | Abrupt o => ok = false /\ exists ex, o = Uncaught ex
    end.
Proof.
  pose proof (with_ZipFile_spec f lvl items w) as H.
  destruct (with_ZipFile f lvl _ w) as [c w']. simpl.
  destruct H as (_ & _ & H). destruct c as [[]|o].
  - exists true, (EZipOpen f lvl true :: map write_ok items ++ [EZipClose f]).
    split; [constructor|]. auto.
  - destruct H as (ex & -> & [[Htr _]|(n & p & a & Hn & Htr)]).
    + exists false, [EZipOpen f lvl false]. split; [constructor|]. eauto.
    + eexists false, _. split; [by apply (zip_write_failed _ _ _ n p a)|]. eauto.
Qed.

Lemma invoke_calls (prm : params) (w : world) :
  let e := w_env w in
  let r := initial_result prm e in
  let f := OsPath.expanduser e (filename prm) in
  match workdir prm w with
  | inl ex =>
      calls prm w = chdir_events prm w /\
      (invoke prm w).1 = FailJson (str_exn ex) r
  | inr k =>
      let pre := chdir_events prm w ++ guard_events prm w k in
      if negb (force prm) && exists_in (fs w) k f
      then calls prm w = pre /\ (invoke prm w).1 = ExitJson r
      else
        match first_missing (fs w) k (paths prm) with
        | Some p =>
            calls prm w = pre ++ checks (fs w) k (paths prm) /\
            (invoke prm w).1 = FailJson ("path does not exist: " +:+ p) r
        | None =>
            match resolve_compress_level (compress_level prm) with
            | inl msg =>
                calls prm w = pre ++ checks (fs w) k (paths prm) /\
                (invoke prm w).1 = FailJson msg r
            | inr n =>
                exists ok zs,
                  zip_calls f n (mapping (flatten prm) e (paths prm) []) ok zs /\
                  calls prm w = pre ++ checks (fs w) k (paths prm) ++ zs /\
                  if ok then (invoke prm w).1 = ExitJson (set_changed true r)
                  else exists ex, (invoke prm w).1 = Uncaught ex
            end
        end
  end.
Proof.
  cbv zeta. pose proof (invoke_unfold prm w) as Hu. cbv zeta in Hu.
  destruct (workdir prm w) as [ex|k].
  - split; [apply calls_of_trace|]; by rewrite Hu.
  - destruct (negb (force prm) && exists_in (fs w) k _).
    + split; [apply calls_of_trace|]; rewrite Hu; [|done].
      simpl. by rewrite <- app_assoc.
    + destruct (first_missing (fs w) k (paths prm)) as [p|].
      * split; [apply calls_of_trace|]; rewrite Hu; [|done].
        simpl. by rewrite <- !app_assoc.
      * destruct (resolve_compress_level (compress_level prm)) as [msg|n].
        -- split; [apply calls_of_trace|]; rewrite Hu; [|done].
           simpl. by rewrite <- !app_assoc.
        -- match type of Hu with context [with_ZipFile ?f ?n ?b ?w2] =>
             destruct (with_ZipFile_calls f n
                         (mapping (flatten prm) (w_env w) (paths prm) []) w2)
               as (ok & zs & Hz & Htr & Hc);
             destruct (with_ZipFile f n b w2) as [c w3]
           end.
           simpl in Htr, Hc. exists ok, zs. split; [done|]. split.
           ++ apply calls_of_trace. rewrite Hu.
              destruct c as [[]|o]; simpl; rewrite Htr; simpl;
                by rewrite <- !app_assoc.
           ++ rewrite Hu. destruct c as [[]|o].
              ** by subst ok.
              ** destruct Hc as (-> & ex & ->). eauto.
Qed.

(** ** The path-to-entry-name mapping *)

Lemma collect_paths_normal (fl : bool) (r : result) (ps : list string)
    (w w' : world) (d : list (string * string)) :
  collect_paths fl r ps [] w = (Normal d, w') ->
  d = mapping fl (w_env w) ps [] /\ first_missing (fs w) (cwd w) ps = None.
Proof.
  rewrite collect_paths_eq.
  destruct (first_missing (fs w) (cwd w) ps); intros H; by simplify_eq.
Qed.

Lemma dict_set_elem (k v : string) (d : list (string * string)) (kv : string * string) :
  kv ∈ dict_set k v d -> kv = (k, v) \/ kv ∈ d.
Proof.
  induction d as [|[k' v'] d IH]; simpl.
  - rewrite list_elem_of_singleton. auto.
  - destruct (String.eqb k' k) eqn:E.
    + apply String.eqb_eq in E. subst k'. rewrite !elem_of_cons. tauto.
    + rewrite !elem_of_cons. intros [->|H]; [auto|]. destruct (IH H); auto.
Qed.

Lemma mapping_values (fl : bool) (e : OsPath.env) (ps : list string)
    (acc : list (string * string)) :
  (forall kv, kv ∈ acc -> kv.2 = archive_name fl kv.1) ->
  forall kv, kv ∈ mapping fl e ps acc -> kv.2 = archive_name fl kv.1.
Proof.
  revert acc. induction ps as [|p ps IH]; simpl; intros acc Hacc; [done|].
  apply IH. intros kv Hin. apply dict_set_elem in Hin as [->|Hin]; auto.
Qed.

Lemma zip_calls_writes (f : string) (lvl : Z) (items : list (string * string))
    (ok : bool) (zs : list event) :
  zip_calls f lvl items ok zs ->
  forall p a b, EZipWrite p a b ∈ zs -> (p, a) ∈ items.
Proof.
  intros Hz p a b. destruct Hz as [|n q c Hn|].
  - rewrite list_elem_of_singleton. done.
  - rewrite elem_of_cons, elem_of_app, list_elem_of_fmap, !elem_of_cons, elem_of_nil.
    intros [?|[([q' c'] & Heq & Hin)|[Heq|[?|[]]]]]; try done.
    + unfold write_ok in Heq. simpl in Heq. simplify_eq.
      eapply elem_of_sublist; [done|apply sublist_take].
    + simplify_eq. by eapply list_elem_of_lookup_2.
  - rewrite elem_of_cons, elem_of_app, list_elem_of_fmap, list_elem_of_singleton.
    intros [?|[([q' c'] & Heq & Hin)|?]]; try done.
    unfold write_ok in Heq. simpl in Heq. by simplify_eq.
Qed.

Lemma written_app (es1 es2 : list event) :
  written (es1 ++ es2) = written es1 ++ written es2.
Proof. unfold written. apply omap_app. Qed.

Lemma written_write_ok (items : list (string * string)) :
  written (map write_ok items) = items.*1.
Proof. induction items as [|[p a] items IH]; simpl; [done|]. by f_equal. Qed.

Lemma written_checks (m : gmap (list string) node) (k : list string) (ps : list string) :
  written (checks m k ps) = [].
Proof.
  induction ps as [|p ps IH]; simpl; [done|].
  destruct (exists_in m k p); done.
Qed.

Lemma written_chdir_events (prm : params) (w : world) :
  written (chdir_events prm w) = [].
Proof.
  unfold chdir_events. destruct (expanded_chdir _ _); [|done].
  by destruct (truthy _).
Qed.

Lemma written_guard_events (prm : params) (w : world) (k : list string) :
  written (guard_events prm w k) = [].
Proof. unfold guard_events. by destruct (force prm). Qed.

Lemma written_cons_open (f : string) (lvl : Z) (b : bool) (es : list event) :
  written (EZipOpen f lvl b :: es) = written es.
Proof. reflexivity. Qed.

Lemma zip_calls_written (f : string) (lvl : Z) (items : list (string * string))
    (ok : bool) (zs : list event) :
  zip_calls f lvl items ok zs -> exists n, written zs = take n items.*1.
Proof.
  intros [|n p a Hn|].
  - by exists 0%nat.
  - exists (S n). rewrite written_cons_open, written_app, written_write_ok.
    rewrite (take_S_r _ _ p); [by rewrite fmap_take|].
    by rewrite list_lookup_fmap, Hn.
  - exists (List.length items).
    rewrite written_cons_open, written_app, written_write_ok. simpl.
    rewrite app_nil_r, take_ge; [done|]. by rewrite length_fmap.
Qed.

Lemma invoke_written (prm : params) (w : world) :
  exists n, written (calls prm w)
            = take n (mapping (flatten prm) (w_env w) (paths prm) []).*1.
Proof.
  pose proof (invoke_calls prm w) as H. cbv zeta in H.
  assert (Hpre : forall k, written (chdir_events prm w ++ guard_events prm w k) = []).
  { intros k. by rewrite written_app, written_chdir_events, written_guard_events. }
  destruct (workdir prm w) as [ex|k].
  - destruct H as [-> _]. exists 0%nat. by rewrite written_chdir_events.
  - destruct (negb (force prm) && exists_in (fs w) k _).
    { destruct H as [-> _]. exists 0%nat. by rewrite Hpre. }
    destruct (first_missing (fs w) k (paths prm)) as [p|].
    { destruct H as [-> _]. exists 0%nat.
      by rewrite written_app, Hpre, written_checks. }
    destruct (resolve_compress_level (compress_level prm)) as [msg|lvl].
    { destruct H as [-> _]. exists 0%nat.
      by rewrite written_app, Hpre, written_checks. }
    destruct H as (ok & zs & Hz & -> & _).
    destruct (zip_calls_written _ _ _ _ _ Hz) as [n Hn]. exists n.
    by rewrite written_app, Hpre, written_app, written_checks, Hn.
Qed.

Lemma checks_sound (m : gmap (list string) node) (k : list string)
    (ps : list string) (e : event) :
  e ∈ checks m k ps -> exists p, p ∈ ps /\ e = EExists p (exists_in m k p).
Proof.
  induction ps as [|q ps IH]; simpl.
  - by rewrite elem_of_nil.
  - rewrite elem_of_cons. intros [->|Hin].
    + exists q. split; [apply elem_of_cons; auto|done].
    + destruct (exists_in m k q); [|by apply elem_of_nil in Hin].
      destruct (IH Hin) as (p & Hp & ->). exists p.
      split; [apply elem_of_cons; auto|done].
Qed.

Lemma invoke_write_item (prm : params) (w : world) (p a : string) (ok : bool) :
  EZipWrite p a ok ∈ calls prm w ->
  (p, a) ∈ mapping (flatten prm) (w_env w) (paths prm) [].
Proof.
  pose proof (invoke_calls prm w) as H. cbv zeta in H.
  assert (Hchk : forall k, EZipWrite p a ok ∉ checks (fs w) k (paths prm)).
  { intros k Hin. by destruct (checks_sound _ _ _ _ Hin) as (q & _ & ?). }
  assert (Hcd : EZipWrite p a ok ∉ chdir_events prm w).
  { unfold chdir_events. destruct (expanded_chdir _ _); [|apply not_elem_of_nil].
    destruct (truthy _); [|apply not_elem_of_nil].
    rewrite list_elem_of_singleton. done. }
  assert (Hg : forall k, EZipWrite p a ok ∉ guard_events prm w k).
  { intros k. unfold guard_events. destruct (force prm); [apply not_elem_of_nil|].
    rewrite list_elem_of_singleton. done. }
  destruct (workdir prm w) as [ex|k].
  - destruct H as [-> _]. done.
  - destruct (negb (force prm) && exists_in (fs w) k _).
    { destruct H as [-> _]. rewrite elem_of_app. intros [?|?]; [done|by destruct (Hg k)]. }
    destruct (first_missing (fs w) k (paths prm)) as [q|].
    { destruct H as [-> _]. rewrite !elem_of_app.
      intros [[?|?]|?]; [done|by destruct (Hg k)|by destruct (Hchk k)]. }
    destruct (resolve_compress_level (compress_level prm)) as [msg|lvl].
    { destruct H as [-> _]. rewrite !elem_of_app.
      intros [[?|?]|?]; [done|by destruct (Hg k)|by destruct (Hchk k)]. }
    destruct H as (b & zs & Hz & -> & _). rewrite !elem_of_app.
    intros [[?|?]|[?|?]]; [done|by destruct (Hg k)|by destruct (Hchk k)|].
    by eapply zip_calls_writes.
Qed.

(** C5.  With [flatten] set, the entry name the loop records for every
    source path is the base filename of the expanded path, and it holds no
    path separator; so does every name under which a path is written to the
    archive. *)
Theorem flatten_entry_is_basename :
  (forall (r : result) (ps : list string) (w w' : world) (d : list (string * string)),
     collect_paths true r ps [] w = (Normal d, w') ->
     forall src, src ∈ ps ->
       dict_get (OsPath.expanduser (w_env w) src) d
         = Some (OsPath.basename (OsPath.expanduser (w_env w) src)) /\
       PyStr.contains PyStr.sep
         (OsPath.basename (OsPath.expanduser (w_env w) src)) = false) /\
  (forall (prm : params) (w : world),
     flatten prm = true ->
     forall p a ok, EZipWrite p a ok ∈ calls prm w ->
       a = OsPath.basename p /\ PyStr.contains PyStr.sep a = false).
Proof.
  split.
  - intros r ps w w' d Hrun src Hsrc.
    apply collect_paths_normal in Hrun as [-> _].
    split; [|apply basename_no_sep].
    by rewrite mapping_lookup_src.
  - intros prm w Hfl p a ok Hin.
    apply invoke_write_item in Hin. rewrite Hfl in Hin.
    apply (mapping_values true) in Hin; [|intros kv H; by apply elem_of_nil in H].
    simpl in Hin. subst a. split; [done|apply basename_no_sep].
Qed.

Lemma flatten_entry_is_basename_witness :
  dict_get "/work/sub/b.txt"
    (mapping true demo_env ["/home/u/f"; "/work/sub/b.txt"] []) = Some "b.txt" /\
  PyStr.contains PyStr.sep "b.txt" = false /\
  flatten (with_flatten true demo_params) = true /\
  EZipWrite "sub/b.txt" "b.txt" true ∈ calls (with_flatten true demo_params) demo_world /\
  "b.txt" = OsPath.basename "sub/b.txt".
Proof.
  pose proof (proj1 flatten_entry_is_basename
                (initial_result demo_params demo_env)
                ["/home/u/f"; "/work/sub/b.txt"] demo_world
                (add_events (checks demo_fs ["work"] ["/home/u/f"; "/work/sub/b.txt"])
                   demo_world)
                (mapping true demo_env ["/home/u/f"; "/work/sub/b.txt"] [])
                ltac:(vm_compute; reflexivity)
                "/work/sub/b.txt"
                ltac:(apply list_elem_of_In; vm_compute; tauto)) as [H1 H2].
  assert (Hin : EZipWrite "sub/b.txt" "b.txt" true
                ∈ calls (with_flatten true demo_params) demo_world).
  { apply list_elem_of_In. vm_compute. tauto. }
  pose proof (proj2 flatten_entry_is_basename (with_flatten true demo_params)
                demo_world eq_refl _ _ _ Hin) as [H3 _].
  split; [exact H1|]. split; [exact H2|]. split; [reflexivity|].
  split; [exact Hin | exact H3].
Defined.

(** C6.  With [flatten] unset, the entry name recorded for every source
    path is the expanded path without its leading separators, the rest
    unchanged; two source paths have the same entry name only when their
    stripped paths are the same, and never when they are distinct with as
    many leading separators.  Every path is written to the archive under
    that name. *)
Theorem hierarchy_entry_is_stripped_path :
  (forall (r : result) (ps : list string) (w w' : world) (d : list (string * string)),
     collect_paths false r ps [] w = (Normal d, w') ->
     let expand := OsPath.expanduser (w_env w) in
     (forall src, src ∈ ps ->
        dict_get (expand src) d = Some (PyStr.lstrip PyStr.sep (expand src)) /\
        expand src
          = PyStr.replicate (PyStr.leading PyStr.sep (expand src)) PyStr.sep
              +:+ PyStr.lstrip PyStr.sep (expand src) /\
        PyStr.startswith PyStr.sep (PyStr.lstrip PyStr.sep (expand src)) = false) /\
     (forall s1 s2, s1 ∈ ps -> s2 ∈ ps ->
        PyStr.lstrip PyStr.sep (expand s1) <> PyStr.lstrip PyStr.sep (expand s2) ->
        dict_get (expand s1) d <> dict_get (expand s2) d) /\
     (forall s1 s2, s1 ∈ ps -> s2 ∈ ps ->
        expand s1 <> expand s2 ->
        PyStr.leading PyStr.sep (expand s1) = PyStr.leading PyStr.sep (expand s2) ->
        dict_get (expand s1) d <> dict_get (expand s2) d)) /\
  (forall (prm : params) (w : world),
     flatten prm = false ->
     forall p a ok, EZipWrite p a ok ∈ calls prm w -> a = PyStr.lstrip PyStr.sep p).
Proof.
  split.
  - intros r ps w w' d Hrun expand.
    apply collect_paths_normal in Hrun as [-> _].
    assert (Hget : forall src, src ∈ ps ->
      dict_get (expand src) (mapping false (w_env w) ps [])
      = Some (PyStr.lstrip PyStr.sep (expand src))).
    { intros src Hsrc. unfold expand. by rewrite mapping_lookup_src. }
    repeat split.
    + by apply Hget.
    + apply lstrip_decompose.
    + apply lstrip_no_leading.
    + intros s1 s2 H1 H2 Hne. rewrite !Hget by done. congruence.
    + intros s1 s2 H1 H2 Hne Hlead. rewrite !Hget by done.
      intros Heq. apply Hne, (lstrip_inj PyStr.sep); congruence.
  - intros prm w Hfl p a ok Hin.
    apply invoke_write_item in Hin. rewrite Hfl in Hin.
    apply (mapping_values false) in Hin; [|intros kv H; by apply elem_of_nil in H].
    exact Hin.
Qed.

Lemma hierarchy_entry_is_stripped_path_witness :
  dict_get "/home/u/f" (mapping false demo_env ["~/f"; "sub/b.txt"] [])
    = Some "home/u/f" /\
  dict_get "/home/u/f" (mapping false demo_env ["~/f"; "sub/b.txt"] [])
    <> dict_get "sub/b.txt" (mapping false demo_env ["~/f"; "sub/b.txt"] []) /\
  EZipWrite "sub/b.txt" "sub/b.txt" true ∈ calls demo_params demo_world /\
  "sub/b.txt" = PyStr.lstrip PyStr.sep "sub/b.txt".
Proof.
  assert (Hmem1 : "~/f" ∈ ["~/f"; "sub/b.txt"]).
  { apply list_elem_of_In. vm_compute. tauto. }
  assert (Hmem2 : "sub/b.txt" ∈ ["~/f"; "sub/b.txt"]).
  { apply list_elem_of_In. vm_compute. tauto. }
  destruct (proj1 hierarchy_entry_is_stripped_path
              (initial_result demo_params demo_env)
              ["~/f"; "sub/b.txt"] tilde_world _ _
              ltac:(rewrite collect_paths_eq; vm_compute; reflexivity))
    as (Ha & Hb & _).
  assert (Hin : EZipWrite "sub/b.txt" "sub/b.txt" true ∈ calls demo_params demo_world).
  { apply list_elem_of_In. vm_compute. tauto. }
  pose proof (proj2 hierarchy_entry_is_stripped_path demo_params demo_world
                eq_refl _ _ _ Hin) as Hc.
  split; [exact (proj1 (Ha "~/f" Hmem1))|].
  split; [|split; [exact Hin | exact Hc]].
  apply (Hb "~/f" "sub/b.txt" Hmem1 Hmem2). vm_compute. discriminate.
Defined.

(** C8.  The keys of the dictionary the loop builds are pairwise distinct
    and are exactly the expansions of the elements of [paths], so that equal
    elements share one entry; and no path is handed to [zf.write] twice in
    an invocation. *)
Theorem archive_paths_keys_unique :
  (forall (fl : bool) (r : result) (ps : list string) (w w' : world)
          (d : list (string * string)),
     collect_paths fl r ps [] w = (Normal d, w') ->
     NoDup d.*1 /\
     (forall k, k ∈ d.*1 <->
                exists src, src ∈ ps /\ k = OsPath.expanduser (w_env w) src)) /\
  (forall (prm : params) (w : world), NoDup (written (calls prm w))).
Proof.
  split.
  - intros fl r ps w w' d Hrun.
    apply collect_paths_normal in Hrun as [-> _]. split.
    + apply mapping_NoDup. constructor.
    + intros k. rewrite mapping_keys. split; [|auto].
      intros [Hk|?]; [|done]. by apply elem_of_nil in Hk.
  - intros prm w. destruct (invoke_written prm w) as [n ->].
    eapply sublist_NoDup; [|apply sublist_take].
    apply mapping_NoDup. constructor.
Qed.

Lemma archive_paths_keys_unique_witness :
  (mapping false demo_env ["a.txt"; "sub/b.txt"; "a.txt"] []).*1
    = ["a.txt"; "sub/b.txt"] /\
  NoDup (mapping false demo_env ["a.txt"; "sub/b.txt"; "a.txt"] []).*1 /\
  written (calls (with_paths ["a.txt"; "sub/b.txt"; "a.txt"] demo_params) demo_world)
    = ["a.txt"; "sub/b.txt"] /\
  NoDup (written (calls (with_paths ["a.txt"; "sub/b.txt"; "a.txt"] demo_params)
                    demo_world)).
Proof.
  split; [vm_compute; reflexivity|].
  split.
  - exact (proj1 (proj1 archive_paths_keys_unique false
             (initial_result demo_params demo_env)
             ["a.txt"; "sub/b.txt"; "a.txt"] demo_world
             (add_events (checks demo_fs ["work"] ["a.txt"; "sub/b.txt"; "a.txt"])
                demo_world)
             (mapping false demo_env ["a.txt"; "sub/b.txt"; "a.txt"] [])
             ltac:(vm_compute; reflexivity))).
  - split; [vm_compute; reflexivity|].
    exact (proj2 archive_paths_keys_unique
             (with_paths ["a.txt"; "sub/b.txt"; "a.txt"] demo_params) demo_world).
Defined.

(** ** The working directory *)

Lemma zip_calls_only_zip (f : string) (lvl : Z) (items : list (string * string))
    (ok : bool) (zs : list event) :
  zip_calls f lvl items ok zs -> forall e, e ∈ zs -> is_zip_event e = true.
Proof.
  intros Hz e. destruct Hz as [|n p a Hn|].
  - rewrite list_elem_of_singleton. by intros ->.
  - rewrite elem_of_cons, elem_of_app, list_elem_of_fmap, !elem_of_cons, elem_of_nil.
    intros [->|[(it & Hit & _)|[-> |[-> |[]]]]]; try done. by subst e.
  - rewrite elem_of_cons, elem_of_app, list_elem_of_fmap, list_elem_of_singleton.
    intros [->|[(it & Hit & _)| ->]]; try done. by subst e.
Qed.

Lemma guard_events_sound (prm : params) (w : world) (k : list string) (e : event) :
  e ∈ guard_events prm w k -> exists p, e = EExists p (exists_in (fs w) k p).
Proof.
  unfold guard_events. destruct (force prm).
  - by rewrite elem_of_nil.
  - rewrite list_elem_of_singleton. intros ->. eauto.
Qed.

Lemma invoke_calls_after_chdir (prm : params) (w : world) (k : list string) :
  workdir prm w = inr k ->
  exists rest,
    calls prm w = chdir_events prm w ++ rest /\
    forall e, e ∈ rest ->
      (exists p, e = EExists p (exists_in (fs w) k p)) \/ is_zip_event e = true.
Proof.
  intros Hwd. pose proof (invoke_calls prm w) as H. cbv zeta in H. rewrite Hwd in H.
  assert (Hpre : forall e,
            e ∈ guard_events prm w k ++ checks (fs w) k (paths prm) ->
            exists p, e = EExists p (exists_in (fs w) k p)).
  { intros e. rewrite elem_of_app. intros [He|He].
    - by eapply guard_events_sound.
    - destruct (checks_sound _ _ _ _ He) as (p & _ & ->). eauto. }
  destruct (negb (force prm) && exists_in (fs w) k _).
  { destruct H as [-> _]. exists (guard_events prm w k). split; [done|].
    intros e He. left. by eapply guard_events_sound. }
  destruct (first_missing (fs w) k (paths prm)) as [p|].
  { destruct H as [-> _]. exists (guard_events prm w k ++ checks (fs w) k (paths prm)).
    split; [by rewrite app_assoc|]. intros e He. left. by apply Hpre. }
  destruct (resolve_compress_level (compress_level prm)) as [msg|lvl].
  { destruct H as [-> _]. exists (guard_events prm w k ++ checks (fs w) k (paths prm)).
    split; [by rewrite app_assoc|]. intros e He. left. by apply Hpre. }
  destruct H as (ok & zs & Hz & -> & _).
  exists ((guard_events prm w k ++ checks (fs w) k (paths prm)) ++ zs).
  split; [by rewrite <- !app_assoc|].
  intros e. rewrite elem_of_app. intros [He|He]; [left; by apply Hpre|].
  right. by eapply zip_calls_only_zip.
Qed.

Lemma invoke_cwd (prm : params) (w : world) :
  cwd (invoke prm w).2
  = match workdir prm w with inr k => k | inl _ => cwd w end.
Proof.
  rewrite invoke_unfold. cbv zeta.
  destruct (workdir prm w) as [ex|k]; [done|].
  destruct (negb (force prm) && exists_in (fs w) k _); [done|].
  destruct (first_missing (fs w) k (paths prm)); [done|].
  destruct (resolve_compress_level (compress_level prm)) as [msg|lvl]; [done|].
  match goal with |- context [with_ZipFile ?f ?n ?b ?w2] =>
    pose proof (with_ZipFile_spec f n
                  (mapping (flatten prm) (w_env w) (paths prm) []) w2) as H;
    destruct (with_ZipFile f n b w2) as [c w3]
  end.
  destruct H as (_ & Hc & _). by destruct c as [[]|o].
Qed.

Lemma workdir_given (prm : params) (w : world) (d : string) :
  chdir prm = Some d -> d <> "" ->
  workdir prm w = chdir_target (fs w) (cwd w) (OsPath.expanduser (w_env w) d) /\
  chdir_events prm w
  = [EChdir (OsPath.expanduser (w_env w) d)
       (match workdir prm w with inl _ => false | inr _ => true end)].
Proof.
  intros Hc Hd. unfold chdir_events, workdir, expanded_chdir. rewrite Hc.
  pose proof (expanduser_nonempty (w_env w) d Hd) as Hne.
  apply String.eqb_neq in Hd, Hne. simpl. rewrite Hd. simpl. by rewrite Hne.
Qed.

Lemma chdir_target_inr (m : gmap (list string) node) (wd k : list string)
    (d : string) :
  chdir_target m wd d = inr k <-> locate m wd d = Some k /\ m !! k = Some Dir.
Proof.
  unfold chdir_target. destruct (locate m wd d) as [key|].
  - split.
    + destruct (m !! key) as [[| | |]|] eqn:E; try done. by intros [= <-].
    + intros [[= ->] ->]. done.
  - split; [done|]. by intros [? _].
Qed.

(** [EISDIR] is answered to [open] only. *)
Lemma namei_errno_lookup (m : gmap (list string) node) (cur comps : list string) :
  namei_errno false m cur comps <> EISDIR.
Proof.
  revert cur. induction comps as [|c comps IH]; intros cur; simpl; [done|].
  destruct (m !! cur) as [[| | |]|]; first [done | apply IH].
Qed.

Lemma lookup_error_cases (m : gmap (list string) node) (wd : list string)
    (d : string) :
  (PyStr.contains PyStr.NUL d = true /\
   lookup_error false m wd d = ValueError "embedded null byte") \/
  (PyStr.contains PyStr.NUL d = false /\
   (lookup_error false m wd d = FileNotFoundError d \/
    lookup_error false m wd d = NotADirectoryError d)).
Proof.
  unfold lookup_error. destruct (PyStr.contains PyStr.NUL d); [left; done|right].
  split; [done|]. destruct (String.eqb d ""); [by left|].
  match goal with |- context [namei_errno false ?m ?c ?l] =>
    pose proof (namei_errno_lookup m c l) as H;
    destruct (namei_errno false m c l)
  end; simpl; auto. done.
Qed.

Lemma chdir_target_inl (m : gmap (list string) node) (wd : list string)
    (d : string) (ex : exn) :
  chdir_target m wd d = inl ex ->
  stat m wd d <> Some Dir /\
  (ex = ValueError "embedded null byte" \/ ex = FileNotFoundError d \/
   ex = NotADirectoryError d) /\
  (forall n, stat m wd d = Some n -> ex = NotADirectoryError d).
Proof.
  unfold chdir_target, stat.
  destruct (locate m wd d) as [key|].
  - destruct (m !! key) as [[| | |]|] eqn:E; intros [= <-];
      (split; [done|]); (split; [auto|]); intros n [= <-]; done.
  - intros [= <-]. split; [done|]. split; [|done].
    destruct (lookup_error_cases m wd d) as [[_ ->]|[_ [-> | ->]]]; auto.
Qed.

(** C7.  When [chdir] is given, [os.chdir] is the first call of the
    invocation.  If it fails, which it does when the expanded [chdir] does
    not name a directory, the module fails with the text of the exception
    ([str(ex)]: for an [OSError] the error and the [repr] of the path), the
    file system is as it was and no other call has been made.  If it
    succeeds, the process is in the directory the expanded [chdir] leads to
    from the old working directory, and every existence check that follows is
    answered from there. *)
Theorem chdir_first (prm : params) (w : world) (d : string) :
  chdir prm = Some d -> d <> "" ->
  let d' := OsPath.expanduser (w_env w) d in
  match (os_chdir d' w).1 with
  | Abrupt (Uncaught ex) =>
      stat (fs w) (cwd w) d' <> Some Dir /\
      (ex = ValueError "embedded null byte" \/ ex = FileNotFoundError d' \/
       ex = NotADirectoryError d') /\
      (forall n, stat (fs w) (cwd w) d' = Some n -> ex = NotADirectoryError d') /\
      (invoke prm w).1 = FailJson (str_exn ex) (initial_result prm (w_env w)) /\
      calls prm w = [EChdir d' false] /\
      fs (invoke prm w).2 = fs w /\
      cwd (invoke prm w).2 = cwd w
  | _ =>
      exists k rest,
        locate (fs w) (cwd w) d' = Some k /\
        fs w !! k = Some Dir /\
        chdir_target (fs w) (cwd w) d' = inr k /\
        calls prm w = EChdir d' true :: rest /\
        cwd (invoke prm w).2 = k /\
        (forall p b, EExists p b ∈ rest -> b = exists_in (fs w) k p) /\
        (forall x ok, EChdir x ok ∉ rest)
  end.
Proof.
  intros Hc Hd d'. destruct (workdir_given prm w d Hc Hd) as [Hwd Hev].
  fold d' in Hwd, Hev. unfold os_chdir.
  destruct (chdir_target (fs w) (cwd w) d') as [ex|k] eqn:Ht; simpl.
  - pose proof (invoke_calls prm w) as H. cbv zeta in H.
    rewrite Hwd in H, Hev. destruct H as [Hcalls Hout].
    destruct (chdir_target_inl _ _ _ _ Ht) as (Hs & Hex & Hfile).
    rewrite invoke_cwd, Hwd.
    split; [done|]. split; [done|]. split; [done|]. split; [done|].
    split; [by rewrite Hcalls, Hev|]. split; [|done].
    rewrite invoke_unfold. cbv zeta. by rewrite Hwd.
  - destruct (invoke_calls_after_chdir prm w k Hwd) as (rest & Hcalls & Hrest).
    apply chdir_target_inr in Ht as [Hl Hk].
    rewrite Hwd in Hev. exists k, rest. rewrite invoke_cwd, Hwd.
    split; [done|]. split; [done|]. split; [done|].
    split; [by rewrite Hcalls, Hev|]. split; [done|]. split.
    + intros p b Hin. destruct (Hrest _ Hin) as [(q & Heq)|Hz]; [|done].
      by simplify_eq.
    + intros x ok Hin. destruct (Hrest _ Hin) as [(q & Heq)|Hz]; done.
Qed.

Lemma chdir_first_witness :
  ((invoke (with_chdir (Some "/nope") demo_params) demo_world).1
   = FailJson "[Errno 2] No such file or directory: '/nope'"
       (initial_result (with_chdir (Some "/nope") demo_params) demo_env) /\
   calls (with_chdir (Some "/nope") demo_params) demo_world = [EChdir "/nope" false] /\
   fs (invoke (with_chdir (Some "/nope") demo_params) demo_world).2 = demo_fs /\
   cwd (invoke (with_chdir (Some "/nope") demo_params) demo_world).2 = ["work"]) /\
  ((invoke (with_chdir (Some "a.txt/it's") demo_params) demo_world).1
   = FailJson ("[Errno 20] Not a directory: "
               +:+ String PyStr.dquote ("a.txt/it's" +:+ String PyStr.dquote ""))
       (initial_result (with_chdir (Some "a.txt/it's") demo_params) demo_env) /\
   calls (with_chdir (Some "a.txt/it's") demo_params) demo_world
   = [EChdir "a.txt/it's" false]) /\
  (exists rest,
     calls (with_paths ["f"] (with_chdir (Some "~") demo_params)) demo_world
     = EChdir "/home/u" true :: rest /\
     cwd (invoke (with_paths ["f"] (with_chdir (Some "~") demo_params)) demo_world).2
     = ["home"; "u"] /\
     EExists "f" true ∈ rest /\
     exists_in demo_fs ["home"; "u"] "f" = true /\
     exists_in demo_fs ["work"] "f" = false /\
     (forall p b, EExists p b ∈ rest -> b = exists_in demo_fs ["home"; "u"] p) /\
     (forall x ok, EChdir x ok ∉ rest)) /\
  calls (with_paths ["f"] (with_chdir (Some "~") demo_params)) demo_world
  = [EChdir "/home/u" true; EExists "f" true; EZipOpen "new.zip" (-1) true;
     EZipWrite "f" "f" true; EZipClose "new.zip"] /\
  fs (invoke (with_paths ["f"] (with_chdir (Some "~") demo_params)) demo_world).2
    !! ["home"; "u"; "new.zip"] = Some (Zip (-1) [("f", Raw "data")]) /\
  fs (invoke (with_paths ["f"] (with_chdir (Some "~") demo_params)) demo_world).2
    !! ["work"; "new.zip"] = None.
Proof.
  split; [|split; [|split; [|repeat split; vm_compute; reflexivity]]].
  - pose proof (chdir_first (with_chdir (Some "/nope") demo_params) demo_world
                  "/nope" eq_refl ltac:(discriminate)) as H.
    simpl in H. destruct H as (_ & _ & _ & H). exact H.
  - pose proof (chdir_first (with_chdir (Some "a.txt/it's") demo_params) demo_world
                  "a.txt/it's" eq_refl ltac:(discriminate)) as H.
    simpl in H. destruct H as (_ & _ & _ & H1 & H2 & _). split; [exact H1 | exact H2].
  - destruct (chdir_first (with_paths ["f"] (with_chdir (Some "~") demo_params))
                demo_world "~" eq_refl ltac:(discriminate))
      as (k & rest & Hl & _ & _ & Hcalls & Hcwd & Hex & Hcd).
    assert (Hk : ["home"; "u"] = k).
    { vm_compute in Hl. by injection Hl as <-. }
    destruct Hk. exists rest. split; [exact Hcalls|]. split; [exact Hcwd|].
    split; [|split; [reflexivity|split; [reflexivity|split; [exact Hex | exact Hcd]]]].
    assert (Hin : EExists "f" true
                  ∈ calls (with_paths ["f"] (with_chdir (Some "~") demo_params))
                      demo_world).
    { apply list_elem_of_In. vm_compute. tauto. }
    rewrite Hcalls in Hin. apply elem_of_cons in Hin as [Hin|Hin]; [done|exact Hin].
Defined.

(** ** The overwrite guard and the existence checks *)

Lemma workdir_ext (prm : params) (w w2 : world) :
  w_env w2 = w_env w -> cwd w2 = cwd w -> fs w2 = fs w ->
  workdir prm w2 = workdir prm w.
Proof. unfold workdir. by intros -> -> ->. Qed.

Lemma first_missing_some (m : gmap (list string) node) (k : list string)
    (ps : list string) :
  (exists p, p ∈ ps /\ exists_in m k p = false) ->
  exists q, first_missing m k ps = Some q /\ q ∈ ps /\ exists_in m k q = false.
Proof.
  induction ps as [|a ps IH]; simpl; intros (p & Hin & Hp).
  - by apply elem_of_nil in Hin.
  - destruct (exists_in m k a) eqn:Ea.
    + apply elem_of_cons in Hin as [->|Hin]; [congruence|].
      destruct IH as (q & Hq & Hqin & Hqe); [eauto|].
      exists q. split; [done|]. split; [apply elem_of_cons; auto|done].
    + exists a. split; [done|]. split; [apply elem_of_cons; auto|done].
Qed.

Lemma first_missing_none (m : gmap (list string) node) (k : list string)
    (ps : list string) :
  first_missing m k ps = None -> forall p, p ∈ ps -> exists_in m k p = true.
Proof.
  induction ps as [|a ps IH]; simpl; intros Hn p Hin.
  - by apply elem_of_nil in Hin.
  - destruct (exists_in m k a) eqn:Ea; [|done].
    apply elem_of_cons in Hin as [->|Hin]; auto.
Qed.

Lemma first_missing_split (m : gmap (list string) node) (k : list string)
    (checked rest : list string) (p : string) :
  (forall q, q ∈ checked -> exists_in m k q = true) ->
  exists_in m k p = false ->
  first_missing m k (checked ++ p :: rest) = Some p /\
  checks m k (checked ++ p :: rest)
  = map (fun q => EExists q true) checked ++ [EExists p false].
Proof.
  intros Hall Hp. induction checked as [|a checked IH]; simpl.
  - by rewrite Hp.
  - rewrite (Hall a) by (apply elem_of_cons; auto).
    destruct IH as [-> ->]; [|done].
    intros q Hq. apply Hall, elem_of_cons. auto.
Qed.

Lemma first_missing_all (m : gmap (list string) node) (k : list string)
    (ps : list string) :
  (forall q, q ∈ ps -> exists_in m k q = true) ->
  first_missing m k ps = None /\
  checks m k ps = map (fun q => EExists q true) ps.
Proof.
  intros Hall. induction ps as [|a ps IH]; simpl; [done|].
  rewrite (Hall a) by (apply elem_of_cons; auto).
  destruct IH as [-> ->]; [|done].
  intros q Hq. apply Hall, elem_of_cons. auto.
Qed.

Lemma invoke_noop (prm : params) (w : world) (k : list string) :
  workdir prm w = inr k ->
  force prm = false ->
  exists_in (fs w) k (OsPath.expanduser (w_env w) (filename prm)) = true ->
  (invoke prm w).1 = ExitJson (initial_result prm (w_env w)) /\
  fs (invoke prm w).2 = fs w /\
  calls prm w
  = chdir_events prm w ++ [EExists (OsPath.expanduser (w_env w) (filename prm)) true].
Proof.
  intros Hwd Hf He.
  pose proof (invoke_calls prm w) as H. cbv zeta in H.
  pose proof (invoke_unfold prm w) as Hu. cbv zeta in Hu.
  rewrite Hwd, Hf, He in H, Hu. simpl in H, Hu. destruct H as [Hcalls Hout].
  split; [done|]. split; [by rewrite Hu|].
  rewrite Hcalls. unfold guard_events. by rewrite Hf, He.
Qed.

Lemma chdir_events_no_zip (prm : params) (w : world) (e : event) :
  e ∈ chdir_events prm w -> is_zip_event e = false.
Proof.
  unfold chdir_events. destruct (expanded_chdir _ _); [|by rewrite elem_of_nil].
  destruct (truthy _); [|by rewrite elem_of_nil].
  rewrite list_elem_of_singleton. by intros ->.
Qed.

(** C4, as amended.  When the working directory has been entered (or none
    was asked for), the destination exists and [force] is unset, the module
    exits successfully with [changed = false]; the file system is as it was
    and no call to [zipfile] has been made.  An invocation with the same
    parameters in the process state this one started from, on the file
    system it leaves, does the same. *)
Theorem existing_destination_noop (prm : params) (w : world) (k : list string) :
  workdir prm w = inr k ->
  force prm = false ->
  exists_in (fs w) k (OsPath.expanduser (w_env w) (filename prm)) = true ->
  (invoke prm w).1 = ExitJson (initial_result prm (w_env w)) /\
  changed (initial_result prm (w_env w)) = false /\
  fs (invoke prm w).2 = fs w /\
  (forall e, e ∈ calls prm w -> is_zip_event e = false) /\
  (forall w2, w_env w2 = w_env w -> cwd w2 = cwd w -> fs w2 = fs (invoke prm w).2 ->
     (invoke prm w2).1 = ExitJson (initial_result prm (w_env w)) /\
     fs (invoke prm w2).2 = fs w /\
     (forall e, e ∈ calls prm w2 -> is_zip_event e = false)).
Proof.
  intros Hwd Hf He.
  assert (Hgen : forall w2, w_env w2 = w_env w -> cwd w2 = cwd w -> fs w2 = fs w ->
            (invoke prm w2).1 = ExitJson (initial_result prm (w_env w)) /\
            fs (invoke prm w2).2 = fs w /\
            (forall e, e ∈ calls prm w2 -> is_zip_event e = false)).
  { intros w2 H1 H2 H3.
    destruct (invoke_noop prm w2 k) as (Ho & Hfs & Hcalls).
    - by rewrite (workdir_ext prm w w2).
    - done.
    - by rewrite H1, H3.
    - rewrite Ho, Hfs, H1, H3. repeat split; try done.
      intros e. rewrite Hcalls, elem_of_app, list_elem_of_singleton.
      intros [Hin| ->]; [by eapply chdir_events_no_zip|done]. }
  destruct (Hgen w eq_refl eq_refl eq_refl) as (Ho & Hfs & Hz).
  split; [done|]. split; [done|]. split; [done|]. split; [done|].
  intros w2 H1 H2 H3. apply Hgen; try done. by rewrite H3.
Qed.

Lemma existing_destination_noop_witness :
  (invoke (with_force false (with_filename "out.zip" demo_params)) demo_world).1
  = ExitJson (initial_result (with_force false (with_filename "out.zip" demo_params))
                demo_env) /\
  fs (invoke (with_force false (with_filename "out.zip" demo_params)) demo_world).2
  = demo_fs.
Proof.
  destruct (existing_destination_noop
              (with_force false (with_filename "out.zip" demo_params))
              demo_world ["work"] eq_refl eq_refl eq_refl) as (H1 & _ & H2 & _).
  split; [exact H1 | exact H2].
Defined.

(** The claim C4 as worded fails when the working directory cannot be
    entered: the destination exists, [force] is unset, and the module fails. *)
Lemma existing_destination_chdir_failure :
  ~ (forall (prm : params) (w : world),
       force prm = false ->
       exists_in (fs w) (cwd w) (OsPath.expanduser (w_env w) (filename prm)) = true ->
       exists r, (invoke prm w).1 = ExitJson r /\ changed r = false).
Proof.
  intros H.
  destruct (H (with_chdir (Some "/nope")
                 (with_force false (with_filename "/work/out.zip" demo_params)))
              demo_world eq_refl eq_refl) as (r & Hr & _).
  vm_compute in Hr. discriminate.
Qed.

(** C10, as amended.  When the working directory has been entered (or none
    was asked for), the destination exists and [force] is unset, the module
    exits successfully with [changed = false] whatever [paths] and
    [compress_level] are: the only existence check made is that of the
    destination, no source path is looked at and the compression setting is
    not resolved. *)
Theorem guard_precedes_checks (prm : params) (w : world) (k : list string)
    (ps : list string) (lvl : pyval) :
  workdir prm w = inr k ->
  force prm = false ->
  exists_in (fs w) k (OsPath.expanduser (w_env w) (filename prm)) = true ->
  let prm' := with_compress_level lvl (with_paths ps prm) in
  (invoke prm' w).1 = ExitJson (initial_result prm' (w_env w)) /\
  changed (initial_result prm' (w_env w)) = false /\
  calls prm' w
  = chdir_events prm w ++ [EExists (OsPath.expanduser (w_env w) (filename prm)) true].
Proof.
  intros Hwd Hf He prm'.
  destruct (invoke_noop prm' w k Hwd Hf He) as (Ho & _ & Hcalls).
  split; [done|]. split; [done|]. exact Hcalls.
Qed.

Lemma guard_precedes_checks_witness :
  first_missing demo_fs ["work"] ["nope.txt"] = Some "nope.txt" /\
  resolve_compress_level (PyString "banana")
  = inl "incorrect value for 'compress_level' option: banana" /\
  (invoke (with_compress_level (PyString "banana")
             (with_paths ["nope.txt"]
                (with_force false (with_filename "out.zip" demo_params))))
     demo_world).1
  = ExitJson (initial_result
                (with_compress_level (PyString "banana")
                   (with_paths ["nope.txt"]
                      (with_force false (with_filename "out.zip" demo_params))))
                demo_env) /\
  calls (with_compress_level (PyString "banana")
           (with_paths ["nope.txt"]
              (with_force false (with_filename "out.zip" demo_params))))
    demo_world
  = [EExists "out.zip" true].
Proof.
  destruct (guard_precedes_checks
              (with_force false (with_filename "out.zip" demo_params))
              demo_world ["work"] ["nope.txt"] (PyString "banana")
              eq_refl eq_refl eq_refl) as (H1 & _ & H2).
  split; [vm_compute; reflexivity|]. split; [vm_compute; reflexivity|].
  split; [exact H1 | exact H2].
Defined.

(** The claim C10 as worded fails when [chdir] names something that is not
    a directory: the destination exists, [force] is unset, and the module
    fails before it reaches the guard. *)
Lemma guard_not_reached_after_chdir_failure :
  ~ (forall (prm : params) (w : world),
       force prm = false ->
       exists_in (fs w) (cwd w) (OsPath.expanduser (w_env w) (filename prm)) = true ->
       (invoke prm w).1 = ExitJson (initial_result prm (w_env w))).
Proof.
  intros H.
  pose proof (H (with_chdir (Some "a.txt")
                   (with_force false (with_filename "/work/out.zip" demo_params)))
                demo_world eq_refl eq_refl) as Hr.
  vm_compute in Hr. discriminate.
Qed.

(** ** Missing source paths *)

Lemma invoke_early_fs (prm : params) (w : world) (k : list string) :
  workdir prm w = inr k ->
  first_missing (fs w) k (paths prm) <> None ->
  fs (invoke prm w).2 = fs w /\
  (forall e, e ∈ calls prm w -> is_zip_event e = false).
Proof.
  intros Hwd Hm.
  destruct (invoke_calls_after_chdir prm w k Hwd) as (rest & Hcalls & Hrest).
  pose proof (invoke_calls prm w) as H. cbv zeta in H.
  pose proof (invoke_unfold prm w) as Hu. cbv zeta in Hu.
  rewrite Hwd in H, Hu.
  assert (Hnz : forall e,
            e ∈ (chdir_events prm w ++ guard_events prm w k)
                  ++ checks (fs w) k (paths prm) ->
            is_zip_event e = false).
  { intros e. rewrite !elem_of_app. intros [[He|He]|He].
    - by eapply chdir_events_no_zip.
    - by destruct (guard_events_sound _ _ _ _ He) as (p & ->).
    - by destruct (checks_sound _ _ _ _ He) as (p & _ & ->). }
  destruct (negb (force prm) && exists_in (fs w) k _).
  - destruct H as [Hc _]. split; [by rewrite Hu|].
    intros e He. apply Hnz. rewrite Hc in He. apply elem_of_app. by left.
  - destruct (first_missing (fs w) k (paths prm)) as [p|]; [|done].
    destruct H as [Hc _]. split; [by rewrite Hu|].
    intros e He. apply Hnz. by rewrite Hc in He.
Qed.

(** C2, as amended.  Take an invocation in which the working directory has
    been entered (or none was asked for) and some element of [paths] does
    not exist.  The file system is left as it was and no call to [zipfile]
    is made, whatever [force] and the destination are.  If [force] is set or
    the destination does not exist, the module fails with the message
    [path does not exist: p] for the first missing element [p]; otherwise
    it takes the guard's exit, successfully. *)
Theorem missing_path_rejected (prm : params) (w : world) (k : list string) :
  workdir prm w = inr k ->
  (exists p, p ∈ paths prm /\ exists_in (fs w) k p = false) ->
  fs (invoke prm w).2 = fs w /\
  (forall e, e ∈ calls prm w -> is_zip_event e = false) /\
  (if negb (force prm)
      && exists_in (fs w) k (OsPath.expanduser (w_env w) (filename prm))
   then (invoke prm w).1 = ExitJson (initial_result prm (w_env w))
   else exists q,
          first_missing (fs w) k (paths prm) = Some q /\
          q ∈ paths prm /\ exists_in (fs w) k q = false /\
          (invoke prm w).1
          = FailJson ("path does not exist: " +:+ q) (initial_result prm (w_env w))).
Proof.
  intros Hwd Hmiss.
  destruct (first_missing_some _ _ _ Hmiss) as (q & Hq & Hqin & Hqe).
  destruct (invoke_early_fs prm w k Hwd) as [Hfs Hz]; [by rewrite Hq|].
  split; [done|]. split; [done|].
  pose proof (invoke_calls prm w) as H. cbv zeta in H. rewrite Hwd, Hq in H.
  destruct (negb (force prm) && exists_in (fs w) k _).
  - by destruct H.
  - exists q. by destruct H.
Qed.

Lemma missing_path_rejected_witness :
  (invoke (with_paths ["a.txt"; "nope.txt"; "gone.txt"] demo_params) demo_world).1
  = FailJson "path does not exist: nope.txt"
      (initial_result (with_paths ["a.txt"; "nope.txt"; "gone.txt"] demo_params)
         demo_env) /\
  fs (invoke (with_paths ["a.txt"; "nope.txt"; "gone.txt"] demo_params)
        demo_world).2 = demo_fs.
Proof.
  destruct (missing_path_rejected
              (with_paths ["a.txt"; "nope.txt"; "gone.txt"] demo_params)
              demo_world ["work"] eq_refl) as (Hfs & _ & Hout).
  - exists "nope.txt". split; [|reflexivity].
    apply list_elem_of_In. simpl. tauto.
  - split; [|exact Hfs].
    destruct Hout as (q & Hq & _ & _ & Ho).
    vm_compute in Hq. injection Hq as <-. exact Ho.
Defined.

(** The claim C2 as worded fails when the destination exists and [force] is
    unset: an element of [paths] is missing and the module exits
    successfully. *)
Lemma missing_path_behind_guard :
  ~ (forall (prm : params) (w : world),
       (exists p, p ∈ paths prm /\ exists_in (fs w) (cwd w) p = false) ->
       exists msg r, (invoke prm w).1 = FailJson msg r).
Proof.
  intros H.
  destruct (H (with_paths ["nope.txt"]
                 (with_force false (with_filename "out.zip" demo_params)))
              demo_world) as (msg & r & Hr).
  - exists "nope.txt". split; [|reflexivity].
    apply list_elem_of_In. simpl. tauto.
  - vm_compute in Hr. discriminate.
Qed.

(** ** The exits of the module *)

Lemma prelude_no_zip (prm : params) (w : world) (k : list string) (e : event) :
  e ∈ (chdir_events prm w ++ guard_events prm w k) ++ checks (fs w) k (paths prm) ->
  is_zip_event e = false.
Proof.
  rewrite !elem_of_app. intros [[He|He]|He].
  - by eapply chdir_events_no_zip.
  - by destruct (guard_events_sound _ _ _ _ He) as (p & ->).
  - by destruct (checks_sound _ _ _ _ He) as (p & _ & ->).
Qed.

Lemma first_missing_in (m : gmap (list string) node) (k : list string)
    (ps : list string) (p : string) :
  first_missing m k ps = Some p -> p ∈ ps.
Proof.
  induction ps as [|a ps IH]; simpl; [done|].
  destruct (exists_in m k a).
  - intros H. apply elem_of_cons. auto.
  - intros [= ->]. apply elem_of_cons. auto.
Qed.

Lemma resolve_error (c : pyval) (msg : string) :
  resolve_compress_level c = inl msg ->
  exists s, c = PyString s /\ COMPRESS_MAPPING !! s = None /\
            msg = "incorrect value for 'compress_level' option: " +:+ s.
Proof.
  unfold resolve_compress_level. destruct c as [s|n]; simpl; [|done].
  destruct (COMPRESS_MAPPING !! s) eqn:E; [done|].
  intros [= <-]. eauto.
Qed.

(** Every way an invocation can end, with the calls it has made. *)
Lemma invoke_cases (prm : params) (w : world) :
  let o := (invoke prm w).1 in
  let r0 := initial_result prm (w_env w) in
  let items := mapping (flatten prm) (w_env w) (paths prm) [] in
  (exists ex, workdir prm w = inl ex /\ o = FailJson (str_exn ex) r0 /\
     forall e, e ∈ calls prm w -> is_zip_event e = false) \/
  (exists k, workdir prm w = inr k /\ force prm = false /\ o = ExitJson r0 /\
     forall e, e ∈ calls prm w -> is_zip_event e = false) \/
  (exists p, p ∈ paths prm /\ o = FailJson ("path does not exist: " +:+ p) r0 /\
     forall e, e ∈ calls prm w -> is_zip_event e = false) \/
  (exists s, compress_level prm = PyString s /\
     o = FailJson ("incorrect value for 'compress_level' option: " +:+ s) r0 /\
     forall e, e ∈ calls prm w -> is_zip_event e = false) \/
  (exists pre f lvl ok zs,
     (forall e, e ∈ pre -> is_zip_event e = false) /\
     zip_calls f lvl items ok zs /\
     calls prm w = pre ++ zs /\
     if ok then o = ExitJson (set_changed true r0) else exists ex, o = Uncaught ex).
Proof.
  cbv zeta. pose proof (invoke_calls prm w) as H. cbv zeta in H.
  destruct (workdir prm w) as [ex|k] eqn:Hwd.
  { left. exists ex. destruct H as [Hc Ho]. repeat split; try done.
    intros e. rewrite Hc. apply chdir_events_no_zip. }
  right.
  destruct (negb (force prm) && exists_in (fs w) k _) eqn:Hg.
  { left. exists k. destruct H as [Hc Ho].
    apply andb_true_iff in Hg as [Hf _]. apply negb_true_iff in Hf.
    repeat split; try done. intros e He. rewrite Hc in He.
    apply (prelude_no_zip prm w k). apply elem_of_app. by left. }
  right.
  destruct (first_missing (fs w) k (paths prm)) as [p|] eqn:Hm.
  { left. exists p. destruct H as [Hc Ho].
    split; [by eapply first_missing_in|]. split; [done|].
    intros e He. rewrite Hc in He. by apply (prelude_no_zip prm w k). }
  right.
  destruct (resolve_compress_level (compress_level prm)) as [msg|lvl] eqn:Hl.
  { left. destruct (resolve_error _ _ Hl) as (s & Hs & _ & ->).
    exists s. destruct H as [Hc Ho]. split; [done|]. split; [done|].
    intros e He. rewrite Hc in He. by apply (prelude_no_zip prm w k). }
  right. destruct H as (ok & zs & Hz & Hc & Ho).
  eexists _, _, lvl, ok, zs. split; [apply (prelude_no_zip prm w k)|].
  split; [exact Hz|]. split; [by rewrite Hc, app_assoc|]. exact Ho.
Qed.

Lemma written_no_zip (es : list event) :
  (forall e, e ∈ es -> is_zip_event e = false) -> written es = [].
Proof.
  induction es as [|e es IH]; intros H; [done|].
  assert (He : is_zip_event e = false) by (apply H, elem_of_cons; auto).
  assert (Hes : written es = []).
  { apply IH. intros x Hx. apply H, elem_of_cons. auto. }
  destruct e; try done; exact Hes.
Qed.

Lemma write_ok_not_failed (items : list (string * string)) (p a : string) :
  EZipWrite p a false ∉ map write_ok items.
Proof.
  intros Hin. apply list_elem_of_fmap in Hin as (it & Heq & _). done.
Qed.

(** What the result reports: [changed = true] exactly when the archive was
    opened and no write to it failed, and then every mapped path has been
    written; an exit with [changed = false] is the guard's, with no call to
    [zipfile]; every [fail_json] exit reports [changed = false], echoes the
    parameters and carries one of the module's three messages. *)
Lemma changed_iff_archive_written (prm : params) (w : world) :
  let o := (invoke prm w).1 in
  let r0 := initial_result prm (w_env w) in
  (reported_changed o = true <->
     (exists f lvl, EZipOpen f lvl true ∈ calls prm w) /\
     (forall p a, EZipWrite p a false ∉ calls prm w)) /\
  (reported_changed o = true ->
     o = ExitJson (set_changed true r0) /\
     written (calls prm w) = (mapping (flatten prm) (w_env w) (paths prm) []).*1) /\
  (forall r, o = ExitJson r -> changed r = false ->
     r = r0 /\ force prm = false /\
     forall e, e ∈ calls prm w -> is_zip_event e = false) /\
  (forall msg r, o = FailJson msg r ->
     changed r = false /\ r = r0 /\
     ((exists ex, workdir prm w = inl ex /\ msg = str_exn ex) \/
      (exists p, p ∈ paths prm /\ msg = "path does not exist: " +:+ p) \/
      (exists s, compress_level prm = PyString s /\
                 msg = "incorrect value for 'compress_level' option: " +:+ s))) /\
  (paths (echoed r0) = paths prm /\
   filename (echoed r0) = OsPath.expanduser (w_env w) (filename prm) /\
   chdir (echoed r0) = expanded_chdir (w_env w) (chdir prm) /\
   compress_level (echoed r0) = compress_level prm /\
   flatten (echoed r0) = flatten prm /\
   force (echoed r0) = force prm).
Proof.
  intros o r0.
  assert (Hearly : forall x,
            (forall e, e ∈ calls prm w -> is_zip_event e = false) ->
            reported_changed x = false ->
            (reported_changed x = true <->
               (exists f lvl, EZipOpen f lvl true ∈ calls prm w) /\
               (forall p a, EZipWrite p a false ∉ calls prm w))).
  { intros x Hz Hx. rewrite Hx. split; [done|].
    intros [(f & lvl & Hin) _]. by apply Hz in Hin. }
  split; [|split; [|split; [|split]]]; [| | | |done];
    destruct (invoke_cases prm w)
      as [(ex & Hwd & Ho & Hz)|[(k & Hwd & Hf & Ho & Hz)|[(p & Hp & Ho & Hz)
          |[(s & Hs & Ho & Hz)|(pre & f & lvl & ok & zs & Hpre & Hzc & Hc & Ho)]]]];
    fold o in Ho; fold r0 in Ho.
  (* changed = true exactly when the archive was written *)
  - apply Hearly; [done|]. by rewrite Ho.
  - apply Hearly; [done|]. by rewrite Ho.
  - apply Hearly; [done|]. by rewrite Ho.
  - apply Hearly; [done|]. by rewrite Ho.
  - destruct Hzc as [|n p a Hn|].
    + destruct Ho as [ex ->]. simpl. split; [done|].
      intros [(f' & l' & Hin) _]. rewrite Hc, elem_of_app, list_elem_of_singleton in Hin.
      destruct Hin as [Hin|Hin]; [by apply Hpre in Hin|done].
    + destruct Ho as [ex ->]. simpl. split; [done|].
      intros [_ Hno]. destruct (Hno p a). rewrite Hc.
      rewrite elem_of_app, elem_of_cons, elem_of_app, !elem_of_cons. auto.
    + rewrite Ho. simpl. split; [intros _|done]. split.
      * exists f, lvl. rewrite Hc, elem_of_app, elem_of_cons. auto.
      * intros p a. rewrite Hc, elem_of_app, elem_of_cons, elem_of_app,
          list_elem_of_singleton.
        intros [Hin|[?|[Hin|?]]]; try done.
        -- by apply Hpre in Hin.
        -- by apply write_ok_not_failed in Hin.
  (* what has been written then *)
  - rewrite Ho. done.
  - rewrite Ho. done.
  - rewrite Ho. done.
  - rewrite Ho. done.
  - destruct Hzc as [|n p a Hn|].
    + destruct Ho as [ex ->]. done.
    + destruct Ho as [ex ->]. done.
    + intros _. split; [done|].
      rewrite Hc, written_app, (written_no_zip pre Hpre), written_cons_open,
        written_app, written_write_ok. simpl. by rewrite app_nil_r.
  (* the exit with changed = false *)
  - intros r Hr. by rewrite Ho in Hr.
  - intros r Hr _. rewrite Ho in Hr. by simplify_eq.
  - intros r Hr. by rewrite Ho in Hr.
  - intros r Hr. by rewrite Ho in Hr.
  - intros r Hr Hch. destruct ok.
    + rewrite Ho in Hr. by simplify_eq.
    + destruct Ho as [ex Ho]. by rewrite Ho in Hr.
  (* the exits of fail_json *)
  - intros msg r Hr. rewrite Ho in Hr. simplify_eq. eauto 7.
  - intros msg r Hr. by rewrite Ho in Hr.
  - intros msg r Hr. rewrite Ho in Hr. simplify_eq. eauto 7.
  - intros msg r Hr. rewrite Ho in Hr. simplify_eq. eauto 7.
  - intros msg r Hr. destruct ok.
    + by rewrite Ho in Hr.
    + destruct Ho as [ex Ho]. by rewrite Ho in Hr.
Qed.

(** When a call to [zipfile] fails, the invocation ends in the exception. *)
Lemma zipfile_failure_uncaught (prm : params) (w : world) :
  (exists f lvl, EZipOpen f lvl false ∈ calls prm w) \/
  (exists p a, EZipWrite p a false ∈ calls prm w) ->
  exists ex, (invoke prm w).1 = Uncaught ex.
Proof.
  intros Hfail.
  destruct (invoke_cases prm w)
    as [(ex & _ & _ & Hz)|[(k & _ & _ & _ & Hz)|[(p & _ & _ & Hz)
        |[(s & _ & _ & Hz)|(pre & f & lvl & ok & zs & Hpre & Hzc & Hc & Ho)]]]];
    try (destruct Hfail as [(f' & l' & Hin)|(p' & a' & Hin)]; by apply Hz in Hin).
  destruct ok; [|exact Ho]. exfalso.
  inversion Hzc as [| |Hok Hzs]. subst zs.
  destruct Hfail as [(f' & l' & Hin)|(p' & a' & Hin)];
    rewrite Hc, elem_of_app, elem_of_cons, elem_of_app, list_elem_of_singleton in Hin;
    destruct Hin as [Hin|[?|[Hin|?]]]; try done;
    try (by apply Hpre in Hin);
    apply list_elem_of_fmap in Hin as (it & Heq & _); done.
Qed.

(** C9.  The result reports [changed = true] exactly when the archive was
    opened and no write to it failed, the guard's exit and every [fail_json]
    exit report [changed = false], and every [fail_json] exit carries a
    message and the echoed parameters.  But an error of [zipfile] is no
    [fail_json] exit: the module has no handler around lines 197-200, the
    exception leaves [run_module], and the invocation hands over no result,
    hence neither a message of the module nor the echoed parameters.  With
    the destination [/nodir/new.zip], in a directory that does not exist,
    the invocation ends in the [FileNotFoundError] of [open]; the same
    directory given as [chdir] is reported through [fail_json], the call of
    [os.chdir] being wrapped (lines 165-168). *)
Theorem zipfile_failure_unreported :
  (forall (prm : params) (w : world),
     let o := (invoke prm w).1 in
     let r0 := initial_result prm (w_env w) in
     (reported_changed o = true <->
        (exists f lvl, EZipOpen f lvl true ∈ calls prm w) /\
        (forall p a, EZipWrite p a false ∉ calls prm w)) /\
     (reported_changed o = true ->
        o = ExitJson (set_changed true r0) /\
        written (calls prm w) = (mapping (flatten prm) (w_env w) (paths prm) []).*1) /\
     (forall r, o = ExitJson r -> changed r = false ->
        r = r0 /\ force prm = false /\
        forall e, e ∈ calls prm w -> is_zip_event e = false) /\
     (forall msg r, o = FailJson msg r ->
        changed r = false /\ r = r0 /\
        ((exists ex, workdir prm w = inl ex /\ msg = str_exn ex) \/
         (exists p, p ∈ paths prm /\ msg = "path does not exist: " +:+ p) \/
         (exists s, compress_level prm = PyString s /\
                    msg = "incorrect value for 'compress_level' option: " +:+ s)))) /\
  (forall (prm : params) (w : world),
     (exists f lvl, EZipOpen f lvl false ∈ calls prm w) \/
     (exists p a, EZipWrite p a false ∈ calls prm w) ->
     (exists ex, (invoke prm w).1 = Uncaught ex) /\
     result_of (invoke prm w).1 = None) /\
  (invoke (with_filename "/nodir/new.zip" demo_params) demo_world).1
  = Uncaught (FileNotFoundError "/nodir/new.zip") /\
  calls (with_filename "/nodir/new.zip" demo_params) demo_world
  = [EExists "a.txt" true; EExists "sub/b.txt" true;
     EZipOpen "/nodir/new.zip" (-1) false] /\
  result_of (invoke (with_filename "/nodir/new.zip" demo_params) demo_world).1 = None /\
  (invoke (with_chdir (Some "/nodir") demo_params) demo_world).1
  = FailJson "[Errno 2] No such file or directory: '/nodir'"
      (initial_result (with_chdir (Some "/nodir") demo_params) demo_env).
Proof.
  split; [|split; [|repeat split; vm_compute; reflexivity]].
  - intros prm w.
    destruct (changed_iff_archive_written prm w) as (H1 & H2 & H3 & H4 & _).
    cbv zeta. split; [exact H1|]. split; [exact H2|]. split; [exact H3 | exact H4].
  - intros prm w Hfail.
    destruct (zipfile_failure_uncaught prm w Hfail) as [ex Hex].
    split; [eauto|]. by rewrite Hex.
Qed.

(** ** Home expansion of the source paths *)



Lemma startswith_append (c : ascii) (s t : string) :
  s <> "" -> PyStr.startswith c (s +:+ t) = PyStr.startswith c s.
Proof. destruct s as [|a r]; [done|]. by rewrite append_cons. Qed.









(** * Further properties of [run_module] *)

(** ** When [zipfile] is called *)

Lemma zip_stage_reached (prm : params) (w : world) (e : event) :
  e ∈ calls prm w -> is_zip_event e = true ->
  exists k lvl ok zs,
    workdir prm w = inr k /\
    negb (force prm)
      && exists_in (fs w) k (OsPath.expanduser (w_env w) (filename prm)) = false /\
    first_missing (fs w) k (paths prm) = None /\
    resolve_compress_level (compress_level prm) = inr lvl /\
    zip_calls (OsPath.expanduser (w_env w) (filename prm)) lvl
      (mapping (flatten prm) (w_env w) (paths prm) []) ok zs /\
    calls prm w
    = (chdir_events prm w ++ guard_events prm w k)
        ++ checks (fs w) k (paths prm) ++ zs /\
    e ∈ zs.
Proof.
  intros Hin Hz. pose proof (invoke_calls prm w) as H. cbv zeta in H.
  destruct (workdir prm w) as [ex|k] eqn:Hwd.
  { destruct H as [Hc _]. rewrite Hc in Hin.
    apply chdir_events_no_zip in Hin. congruence. }
  destruct (negb (force prm) && exists_in (fs w) k _) eqn:Hg.
  { destruct H as [Hc _]. rewrite Hc in Hin.
    assert (is_zip_event e = false); [|congruence].
    apply (prelude_no_zip prm w k). apply elem_of_app. by left. }
  destruct (first_missing (fs w) k (paths prm)) as [p|] eqn:Hm.
  { destruct H as [Hc _]. rewrite Hc in Hin.
    apply prelude_no_zip in Hin. congruence. }
  destruct (resolve_compress_level (compress_level prm)) as [msg|lvl] eqn:Hl.
  { destruct H as [Hc _]. rewrite Hc in Hin.
    apply prelude_no_zip in Hin. congruence. }
  destruct H as (ok & zs & Hzc & Hc & _).
  exists k, lvl, ok, zs. repeat split; try done.
  rewrite Hc, app_assoc, elem_of_app in Hin. destruct Hin as [Hin|Hin]; [|done].
  apply prelude_no_zip in Hin. congruence.
Qed.

Lemma zip_calls_nonempty (f : string) (lvl : Z) (items : list (string * string))
    (ok : bool) (zs : list event) :
  zip_calls f lvl items ok zs -> exists b, EZipOpen f lvl b ∈ zs.
Proof.
  intros [|n p a Hn|]; eexists; apply elem_of_cons; left; reflexivity.
Qed.

Lemma zip_calls_open (f : string) (lvl : Z) (items : list (string * string))
    (ok : bool) (zs : list event) (f' : string) (lvl' : Z) (b : bool) :
  zip_calls f lvl items ok zs -> EZipOpen f' lvl' b ∈ zs -> f' = f /\ lvl' = lvl.
Proof.
  intros Hz. destruct Hz as [|n p a Hn|].
  - rewrite list_elem_of_singleton. by intros [= -> ->].
  - rewrite elem_of_cons, elem_of_app, list_elem_of_fmap, !elem_of_cons, elem_of_nil.
    intros [[= -> ->]|[(it & Hit & _)|[?|[?|[]]]]]; done.
  - rewrite elem_of_cons, elem_of_app, list_elem_of_fmap, list_elem_of_singleton.
    intros [[= -> ->]|[(it & Hit & _)|?]]; done.
Qed.

(** Without a call to [zipfile] the file system is as it was. *)
Lemma invoke_no_zip_fs (prm : params) (w : world) :
  (forall e, e ∈ calls prm w -> is_zip_event e = false) ->
  fs (invoke prm w).2 = fs w.
Proof.
  intros Hnz. pose proof (invoke_calls prm w) as H. cbv zeta in H.
  rewrite invoke_unfold. cbv zeta.
  destruct (workdir prm w) as [ex|k]; [done|].
  destruct (negb (force prm) && exists_in (fs w) k _); [done|].
  destruct (first_missing (fs w) k (paths prm)); [done|].
  destruct (resolve_compress_level (compress_level prm)) as [msg|lvl]; [done|].
  destruct H as (ok & zs & Hzc & Hc & _).
  destruct (zip_calls_nonempty _ _ _ _ _ Hzc) as [b Hb].
  assert (Hin : EZipOpen (OsPath.expanduser (w_env w) (filename prm)) lvl b
                ∈ calls prm w).
  { rewrite Hc, !elem_of_app. auto. }
  apply Hnz in Hin. done.
Qed.

Lemma contains_startswith (c : ascii) (s : string) :
  PyStr.contains c s = false -> PyStr.startswith c s = false.
Proof.
  destruct s as [|a r]; simpl; [done|].
  intros H. by apply orb_false_iff in H as [-> _].
Qed.

Lemma archive_name_relative (fl : bool) (path : string) :
  PyStr.startswith PyStr.sep (archive_name fl path) = false.
Proof.
  destruct fl; simpl.
  - apply contains_startswith, basename_no_sep.
  - apply lstrip_no_leading.
Qed.

(** X1.  Whatever [flatten] is, no name under which a path is written to the
    archive begins with a path separator (the note of lines 184-185). *)
Theorem entry_names_relative (prm : params) (w : world) (p a : string) (ok : bool) :
  EZipWrite p a ok ∈ calls prm w ->
  PyStr.startswith PyStr.sep a = false.
Proof.
  intros Hin. apply invoke_write_item in Hin.
  apply (mapping_values (flatten prm)) in Hin;
    [|intros kv H; by apply elem_of_nil in H].
  simpl in Hin. subst a. apply archive_name_relative.
Qed.

Lemma entry_names_relative_witness :
  EZipWrite "/home/u/f" "home/u/f" true
    ∈ calls (with_paths ["/home/u/f"] demo_params) demo_world /\
  PyStr.startswith PyStr.sep "home/u/f" = false.
Proof.
  assert (Hin : EZipWrite "/home/u/f" "home/u/f" true
                ∈ calls (with_paths ["/home/u/f"] demo_params) demo_world).
  { apply list_elem_of_In. vm_compute. tauto. }
  split; [exact Hin|].
  exact (entry_names_relative _ _ _ _ _ Hin).
Defined.

(** X2.  Every exit through [fail_json] (directory change, missing path,
    compression setting) happens before [zipfile] is called: the file
    system is as the invocation found it. *)
Theorem fail_json_leaves_files (prm : params) (w : world) (msg : string)
    (r : result) :
  (invoke prm w).1 = FailJson msg r ->
  fs (invoke prm w).2 = fs w /\
  (forall e, e ∈ calls prm w -> is_zip_event e = false).
Proof.
  intros Ho.
  assert (Hnz : forall e, e ∈ calls prm w -> is_zip_event e = false).
  { destruct (invoke_cases prm w)
      as [(ex & _ & _ & Hz)|[(k & _ & _ & Ho' & _)|[(p & _ & _ & Hz)
          |[(s & _ & _ & Hz)|(pre & f & lvl & ok & zs & _ & _ & _ & Ho')]]]];
      try done.
    - rewrite Ho in Ho'. done.
    - destruct ok; [|destruct Ho' as [ex Ho']]; rewrite Ho in Ho'; done. }
  split; [by apply invoke_no_zip_fs|done].
Qed.

Lemma fail_json_leaves_files_witness :
  (invoke (with_compress_level (PyString "7") demo_params) demo_world).1
  = FailJson "incorrect value for 'compress_level' option: 7"
      (initial_result (with_compress_level (PyString "7") demo_params) demo_env) /\
  fs (invoke (with_compress_level (PyString "7") demo_params) demo_world).2
  = demo_fs.
Proof.
  assert (Ho : (invoke (with_compress_level (PyString "7") demo_params)
                  demo_world).1
               = FailJson "incorrect value for 'compress_level' option: 7"
                   (initial_result (with_compress_level (PyString "7") demo_params)
                      demo_env)).
  { vm_compute. reflexivity. }
  split; [exact Ho|].
  exact (proj1 (fail_json_leaves_files _ _ _ _ Ho)).
Defined.

(** ** The order of the checks *)

(** X3.  The loop over [paths] stops at the first element that does not
    exist: the elements before it have been checked and found, the module
    fails naming that element, and the elements after it are not looked
    at. *)
Theorem fail_fast (prm : params) (w : world) (k : list string)
    (checked rest : list string) (p : string) :
  workdir prm w = inr k ->
  negb (force prm)
    && exists_in (fs w) k (OsPath.expanduser (w_env w) (filename prm)) = false ->
  paths prm = checked ++ p :: rest ->
  (forall q, q ∈ checked -> exists_in (fs w) k q = true) ->
  exists_in (fs w) k p = false ->
  (invoke prm w).1
  = FailJson ("path does not exist: " +:+ p) (initial_result prm (w_env w)) /\
  calls prm w
  = chdir_events prm w ++ guard_events prm w k
      ++ map (fun q => EExists q true) checked ++ [EExists p false].
Proof.
  intros Hwd Hg Hps Hall Hp.
  destruct (first_missing_split (fs w) k checked rest p Hall Hp) as [Hm Hc].
  pose proof (invoke_calls prm w) as H. cbv zeta in H.
  rewrite Hwd, Hg, Hps, Hm, Hc in H. destruct H as [Hcalls Ho].
  split; [done|]. by rewrite Hcalls, <- app_assoc.
Qed.

Lemma fail_fast_witness :
  (invoke (with_paths ["a.txt"; "nope.txt"; "sub/b.txt"; "gone.txt"] demo_params)
     demo_world).1
  = FailJson "path does not exist: nope.txt"
      (initial_result
         (with_paths ["a.txt"; "nope.txt"; "sub/b.txt"; "gone.txt"] demo_params)
         demo_env) /\
  calls (with_paths ["a.txt"; "nope.txt"; "sub/b.txt"; "gone.txt"] demo_params)
    demo_world
  = [EExists "a.txt" true; EExists "nope.txt" false].
Proof.
  apply (fail_fast
           (with_paths ["a.txt"; "nope.txt"; "sub/b.txt"; "gone.txt"] demo_params)
           demo_world ["work"] ["a.txt"] ["sub/b.txt"; "gone.txt"] "nope.txt");
    try reflexivity.
  intros q Hq. apply list_elem_of_singleton in Hq. subst q. reflexivity.
Defined.

(** X4.  The compression setting is looked at only after the loop over
    [paths]: when every path exists and the setting is refused, each path
    has been checked before the module fails with the setting's message. *)
Theorem level_refused_after_paths (prm : params) (w : world) (k : list string)
    (msg : string) :
  workdir prm w = inr k ->
  negb (force prm)
    && exists_in (fs w) k (OsPath.expanduser (w_env w) (filename prm)) = false ->
  (forall q, q ∈ paths prm -> exists_in (fs w) k q = true) ->
  resolve_compress_level (compress_level prm) = inl msg ->
  (invoke prm w).1 = FailJson msg (initial_result prm (w_env w)) /\
  calls prm w
  = chdir_events prm w ++ guard_events prm w k
      ++ map (fun q => EExists q true) (paths prm).
Proof.
  intros Hwd Hg Hall Hl.
  destruct (first_missing_all (fs w) k (paths prm) Hall) as [Hm Hc].
  pose proof (invoke_calls prm w) as H. cbv zeta in H.
  rewrite Hwd, Hg, Hm, Hl, Hc in H. destruct H as [Hcalls Ho].
  split; [done|]. by rewrite Hcalls, <- app_assoc.
Qed.

Lemma level_refused_after_paths_witness :
  (invoke (with_compress_level (PyString "fastest") demo_params) demo_world).1
  = FailJson "incorrect value for 'compress_level' option: fastest"
      (initial_result (with_compress_level (PyString "fastest") demo_params)
         demo_env) /\
  calls (with_compress_level (PyString "fastest") demo_params) demo_world
  = [EExists "a.txt" true; EExists "sub/b.txt" true].
Proof.
  apply (level_refused_after_paths
           (with_compress_level (PyString "fastest") demo_params)
           demo_world ["work"]
           "incorrect value for 'compress_level' option: fastest");
    try reflexivity.
  intros q Hq. apply elem_of_cons in Hq as [->|Hq]; [reflexivity|].
  apply list_elem_of_singleton in Hq. subst q. reflexivity.
Defined.

(** ** The compression level handed to [zipfile] *)

Lemma COMPRESS_MAPPING_range (s : string) (n : Z) :
  COMPRESS_MAPPING !! s = Some n -> n = -1 \/ n = 0 \/ n = 1 \/ n = 9.
Proof.
  unfold COMPRESS_MAPPING.
  rewrite lookup_insert. case_decide; [intros [= <-]; tauto|].
  rewrite lookup_insert. case_decide; [intros [= <-]; tauto|].
  rewrite lookup_insert. case_decide; [intros [= <-]; tauto|].
  rewrite lookup_singleton. case_decide; [intros [= <-]; tauto|done].
Qed.

(** X5.  With a [str] setting, as the option is declared, the archive is
    only ever opened under the expanded destination name and at the level
    [COMPRESS_MAPPING] gives the setting: -1, 0, 1 or 9. *)
Theorem string_level_is_symbolic (prm : params) (w : world) (s f : string)
    (lvl : Z) (ok : bool) :
  compress_level prm = PyString s ->
  EZipOpen f lvl ok ∈ calls prm w ->
  f = OsPath.expanduser (w_env w) (filename prm) /\
  COMPRESS_MAPPING !! s = Some lvl /\
  (lvl = -1 \/ lvl = 0 \/ lvl = 1 \/ lvl = 9).
Proof.
  intros Hs Hin.
  destruct (zip_stage_reached prm w _ Hin eq_refl)
    as (k & n & b & zs & _ & _ & _ & Hl & Hz & _ & Hzs).
  destruct (zip_calls_open _ _ _ _ _ _ _ _ Hz Hzs) as [-> ->].
  split; [done|].
  rewrite Hs in Hl. unfold resolve_compress_level in Hl. simpl in Hl.
  destruct (COMPRESS_MAPPING !! s) as [m|] eqn:Hm; [|done].
  injection Hl as <-. split; [done|]. by eapply COMPRESS_MAPPING_range.
Qed.

Lemma string_level_is_symbolic_witness :
  EZipOpen "new.zip" 9 true
    ∈ calls (with_compress_level (PyString "best") demo_params) demo_world /\
  COMPRESS_MAPPING !! "best" = Some 9.
Proof.
  assert (Hin : EZipOpen "new.zip" 9 true
                ∈ calls (with_compress_level (PyString "best") demo_params)
                    demo_world).
  { apply list_elem_of_In. vm_compute. tauto. }
  split; [exact Hin|].
  exact (proj1 (proj2 (string_level_is_symbolic
                         (with_compress_level (PyString "best") demo_params)
                         demo_world "best" _ _ _ eq_refl Hin))).
Defined.

(** ** No working directory asked for *)

(** X6.  When [chdir] is absent or the empty string, [os.chdir] is never
    called, the process stays in its working directory, and whatever result
    the invocation hands over echoes [chdir] as it was given. *)
Theorem no_chdir_when_absent (prm : params) (w : world) :
  truthy (chdir prm) = false ->
  (forall d ok, EChdir d ok ∉ calls prm w) /\
  cwd (invoke prm w).2 = cwd w /\
  (forall r, result_of (invoke prm w).1 = Some r -> chdir (echoed r) = chdir prm).
Proof.
  intros Ht.
  assert (He : expanded_chdir (w_env w) (chdir prm) = chdir prm).
  { unfold expanded_chdir. destruct (chdir prm); [by rewrite Ht|done]. }
  assert (Hwd : workdir prm w = inr (cwd w)).
  { unfold workdir. rewrite He, Ht. by destruct (chdir prm). }
  assert (Hev : chdir_events prm w = []).
  { unfold chdir_events. rewrite He, Ht. by destruct (chdir prm). }
  split; [|split; [by rewrite invoke_cwd, Hwd|]].
  - intros d ok Hin.
    destruct (invoke_calls_after_chdir prm w (cwd w) Hwd) as (rest & Hc & Hrest).
    rewrite Hev in Hc. simpl in Hc. rewrite Hc in Hin.
    destruct (Hrest _ Hin) as [(p & Hp)|Hz]; done.
  - intros r.
    destruct (invoke_cases prm w)
      as [(ex & _ & -> & _)|[(k & _ & _ & -> & _)|[(p & _ & -> & _)
          |[(s & _ & -> & _)|(pre & f & lvl & ok & zs & _ & _ & _ & Ho)]]]];
      try (by intros [= <-]).
    destruct ok; [rewrite Ho; by intros [= <-]|].
    destruct Ho as [ex ->]. done.
Qed.

Lemma no_chdir_when_absent_witness :
  cwd (invoke (with_chdir (Some "") demo_params) demo_world).2 = ["work"] /\
  (invoke (with_chdir (Some "") demo_params) demo_world).1
  = ExitJson (set_changed true
                (initial_result (with_chdir (Some "") demo_params) demo_env)) /\
  chdir (echoed (set_changed true
                   (initial_result (with_chdir (Some "") demo_params) demo_env)))
  = Some "".
Proof.
  destruct (no_chdir_when_absent (with_chdir (Some "") demo_params) demo_world
              eq_refl) as (_ & H1 & H2).
  assert (Ho : (invoke (with_chdir (Some "") demo_params) demo_world).1
               = ExitJson (set_changed true
                             (initial_result (with_chdir (Some "") demo_params)
                                demo_env))).
  { vm_compute. reflexivity. }
  split; [exact H1|]. split; [exact Ho|].
  apply H2. rewrite Ho. reflexivity.
Defined.

(** ** The names [zipfile] stores *)

Lemma contains_drop (c : ascii) (n : nat) (s : string) :
  PyStr.contains c s = false -> PyStr.contains c (PyStr.drop n s) = false.
Proof.
  revert s. induction n as [|n IH]; intros s; [done|].
  destruct s as [|a r]; simpl; [done|].
  intros H. apply orb_false_iff in H as [_ H]. by apply IH.
Qed.

Lemma contains_lstrip (c x : ascii) (s : string) :
  PyStr.contains c s = false -> PyStr.contains c (PyStr.lstrip x s) = false.
Proof.
  induction s as [|a r IH]; simpl; [done|].
  intros H. destruct (Ascii.eqb a x); [|done].
  apply orb_false_iff in H as [_ H]. by apply IH.
Qed.

Lemma archive_name_contains (c : ascii) (fl : bool) (path : string) :
  PyStr.contains c path = false -> PyStr.contains c (archive_name fl path) = false.
Proof.
  destruct fl; simpl.
  - apply contains_drop.
  - apply contains_lstrip.
Qed.

Lemma contains_append (c : ascii) (s t : string) :
  PyStr.contains c (s +:+ t) = PyStr.contains c s || PyStr.contains c t.
Proof.
  induction s as [|a r IH]; [done|].
  rewrite append_cons. simpl. by rewrite IH, orb_assoc.
Qed.

Lemma split_nonempty (c : ascii) (s : string) : PyStr.split c s <> [].
Proof.
  destruct s as [|a r]; simpl; [done|].
  destruct (PyStr.split c r); [done|]. by destruct (Ascii.eqb a c).
Qed.

(** The components of a path hold no separator, and no character the path
    does not hold. *)
Lemma split_contains (c x : ascii) (s : string) (comp : string) :
  comp ∈ PyStr.split c s ->
  PyStr.contains c comp = false /\
  (PyStr.contains x s = false -> PyStr.contains x comp = false).
Proof.
  revert comp. induction s as [|a r IH]; intros comp; simpl.
  - rewrite list_elem_of_singleton. by intros ->.
  - destruct (PyStr.split c r) as [|h t] eqn:E.
    + rewrite list_elem_of_singleton. by intros ->.
    + destruct (Ascii.eqb a c) eqn:Ea.
      * rewrite elem_of_cons. intros [->|Hin]; [done|].
        destruct (IH comp Hin) as [H1 H2]. split; [done|].
        intros Hx. apply orb_false_iff in Hx as [_ Hx]. auto.
      * rewrite elem_of_cons. intros [->|Hin].
        -- destruct (IH h) as [H1 H2]; [apply elem_of_cons; auto|].
           simpl. rewrite Ea, H1. split; [done|].
           intros Hx. apply orb_false_iff in Hx as [-> Hx]. simpl. auto.
        -- destruct (IH comp) as [H1 H2]; [apply elem_of_cons; auto|].
           split; [done|]. intros Hx. apply orb_false_iff in Hx as [_ Hx]. auto.
Qed.

Lemma Forall_removelast {A} (P : A -> Prop) (l : list A) :
  Forall P l -> Forall P (removelast l).
Proof.
  induction 1 as [|a l Ha Hl IH]; simpl; [constructor|].
  destruct l; [constructor|]. by constructor.
Qed.

Lemma normpath_comps (x : ascii) (slashes : nat) (comps acc : list string) :
  (forall comp, comp ∈ comps -> comp <> "" -> kept x comp) ->
  Forall (kept x) acc ->
  Forall (kept x)
    (fold_left
       (fun new_comps comp =>
          if String.eqb comp "" || String.eqb comp "." then new_comps
          else if negb (String.eqb comp "..")
                  || Nat.eqb slashes 0 && bool_decide (new_comps = [])
                  || bool_decide (last new_comps = Some "..")
               then new_comps ++ [comp]
               else removelast new_comps)
       comps acc).
Proof.
  revert acc. induction comps as [|comp comps IH]; intros acc Hc Hacc; simpl; [done|].
  apply IH.
  - intros c Hin. apply Hc, elem_of_cons. auto.
  - destruct (String.eqb comp "") eqn:E; simpl; [done|].
    apply String.eqb_neq in E.
    destruct (String.eqb comp "."); simpl; [done|].
    destruct (_ || _).
    + apply Forall_app. split; [done|]. constructor; [|constructor].
      apply Hc; [apply elem_of_cons; auto|done].
    + by apply Forall_removelast.
Qed.

Lemma join_kept (x : ascii) (l : list string) :
  Forall (kept x) l ->
  PyStr.startswith PyStr.sep (PyStr.join PyStr.sep l) = false /\
  PyStr.endswith PyStr.sep (PyStr.join PyStr.sep l) = false /\
  (x <> PyStr.sep -> PyStr.contains x (PyStr.join PyStr.sep l) = false) /\
  (l <> [] -> PyStr.join PyStr.sep l <> "").
Proof.
  induction 1 as [|comp l (Hne & Hsep & Hx) Hl IH]; simpl; [done|].
  assert (Hend : forall s t, t <> "" ->
            PyStr.endswith PyStr.sep (s +:+ t) = PyStr.endswith PyStr.sep t).
  { intros s t Ht. induction s as [|a r IHs]; [done|].
    rewrite append_cons. simpl. rewrite IHs.
    destruct (r +:+ t) eqn:E; [|done]. by destruct r, t. }
  assert (Hend1 : PyStr.endswith PyStr.sep comp = false).
  { clear -Hsep. induction comp as [|a r IHc]; [done|]. simpl in *.
    apply orb_false_iff in Hsep as [Ha Hr]. destruct r; [done|]. by apply IHc. }
  destruct l as [|c2 l].
  - split; [by apply contains_startswith|]. split; [done|]. split; [done|]. done.
  - destruct IH as (IH1 & IH2 & IH3 & IH4).
    set (rest := PyStr.join PyStr.sep (c2 :: l)) in *.
    assert (Hrest : rest <> "") by (by apply IH4).
    split; [|split; [|split]].
    + rewrite startswith_append by done. by apply contains_startswith.
    + rewrite Hend by done. simpl.
      destruct rest; [done|]. exact IH2.
    + intros Hxs. rewrite contains_append, Hx. simpl.
      rewrite (IH3 Hxs), orb_false_r.
      destruct (Ascii.eqb PyStr.sep x) eqn:E; [|done].
      apply Ascii.eqb_eq in E. congruence.
    + intros _. destruct comp; [done|]. by rewrite append_cons.
Qed.

(** [normpath] of a relative path: relative, without a final separator, and
    with no character the path does not hold. *)
Lemma normpath_relative (x : ascii) (path : string) :
  PyStr.startswith PyStr.sep path = false ->
  PyStr.contains x path = false ->
  x <> PyStr.sep -> x <> "."%char ->
  OsPath.normpath path <> "" /\
  PyStr.startswith PyStr.sep (OsPath.normpath path) = false /\
  PyStr.endswith PyStr.sep (OsPath.normpath path) = false /\
  PyStr.contains x (OsPath.normpath path) = false.
Proof.
  intros Hrel Hx Hxs Hxd. unfold OsPath.normpath.
  assert (Hdot : PyStr.contains x "." = false).
  { change (PyStr.contains x ".") with (Ascii.eqb "." x || false).
    rewrite orb_false_r. apply Ascii.eqb_neq. congruence. }
  destruct (String.eqb path ""); [done|].
  rewrite Hrel. simpl PyStr.replicate.
  match goal with |- context [fold_left ?f ?l ?a] =>
    assert (Hk : Forall (kept x) (fold_left f l a))
  end.
  { apply normpath_comps; [|constructor].
    intros comp Hin Hne. destruct (split_contains PyStr.sep x path comp Hin) as [H1 H2].
    split; [done|]. split; [done|]. by apply H2. }
  destruct (join_kept x _ Hk) as (J1 & J2 & J3 & J4).
  change ("" +:+ ?s) with s.
  destruct (String.eqb _ "") eqn:E; [done|].
  apply String.eqb_neq in E. split; [done|]. split; [done|]. split; [done|]. by apply J3.
Qed.

Lemma before_absent (c : ascii) (s : string) :
  PyStr.contains c s = false -> PyStr.before c s = s.
Proof.
  induction s as [|a r IH]; simpl; [done|].
  intros H. apply orb_false_iff in H as [-> H]. by rewrite IH.
Qed.

Lemma endswith_sep (s : string) : PyStr.endswith PyStr.sep (s +:+ "/") = true.
Proof.
  induction s as [|a r IH]; [done|]. rewrite append_cons. simpl.
  rewrite IH. by destruct r.
Qed.

(** The name stored for a relative name without null character: the
    normalised name, followed by a separator for a directory. *)
Lemma stored_name_relative (arcname : string) (isdir : bool) :
  PyStr.startswith PyStr.sep arcname = false ->
  PyStr.contains PyStr.NUL arcname = false ->
  stored_name arcname isdir
  = inr (if isdir then OsPath.normpath arcname +:+ "/" else OsPath.normpath arcname).
Proof.
  intros Hrel Hnul. unfold stored_name.
  destruct (normpath_relative PyStr.NUL arcname Hrel Hnul)
    as (Hne & Hs & _ & Hn); [done|done|].
  rewrite (lstrip_relative _ _ Hs).
  apply String.eqb_neq in Hne. rewrite Hne. f_equal.
  apply before_absent. destruct isdir; [|done].
  by rewrite contains_append, Hn.
Qed.

Lemma stat_no_nul (m : gmap (list string) node) (wd : list string) (p : string)
    (n : node) :
  stat m wd p = Some n -> PyStr.contains PyStr.NUL p = false.
Proof.
  unfold stat, locate. destruct (PyStr.contains PyStr.NUL p); [|done].
  by rewrite orb_true_r.
Qed.

Lemma zf_write_stat (level : Z) (m : gmap (list string) node) (wd : list string)
    (p a name : string) (c : node) :
  zf_write level m wd p a = Stored name c -> exists n, stat m wd p = Some n.
Proof.
  unfold zf_write, os_stat. destruct (stat m wd p) as [n|]; [eauto|done].
Qed.

(** [zf.write] under a relative name: a directory gives a directory entry,
    a file an entry with its content. *)
Lemma zf_write_relative (level : Z) (m : gmap (list string) node)
    (wd : list string) (p a : string) (n : node) :
  stat m wd p = Some n ->
  PyStr.startswith PyStr.sep a = false ->
  PyStr.contains PyStr.NUL a = false ->
  zf_write level m wd p a
  = if is_dir n then Stored (OsPath.normpath a +:+ "/") Dir
    else match compressobj level with
         | Some ex => Aborted ex
         | None => Stored (OsPath.normpath a) n
         end.
Proof.
  intros Hs Hrel Hnul. unfold zf_write, os_stat. rewrite Hs.
  rewrite stored_name_relative by done.
  destruct (normpath_relative PyStr.NUL a Hrel Hnul) as (Hne & _ & Hend & _);
    [done|done|].
  destruct (is_dir n) eqn:Hd.
  - rewrite endswith_sep.
    destruct (OsPath.normpath a +:+ "/") eqn:E; [|done].
    by destruct (OsPath.normpath a).
  - apply String.eqb_neq in Hne. rewrite Hne, Hend. by destruct n.
Qed.

(** The items of the mapping carry relative names. *)
Lemma mapping_item_name (fl : bool) (e : OsPath.env) (ps : list string)
    (it : string * string) :
  it ∈ mapping fl e ps [] ->
  it.2 = archive_name fl it.1 /\
  PyStr.startswith PyStr.sep it.2 = false /\
  (PyStr.contains PyStr.NUL it.1 = false -> PyStr.contains PyStr.NUL it.2 = false).
Proof.
  intros Hit. apply (mapping_values fl) in Hit;
    [|intros kv H; by apply elem_of_nil in H].
  rewrite Hit. split; [done|]. split; [apply archive_name_relative|].
  apply archive_name_contains.
Qed.

(** ** The archive on the file system *)

Lemma namei_ext (m m' : gmap (list string) node) (cur : list string)
    (comps : list string) :
  (forall key, m' !! key = Some Dir <-> m !! key = Some Dir) ->
  namei m' cur comps = namei m cur comps.
Proof.
  intros Hd. revert cur. induction comps as [|c comps IH]; intros cur; simpl; [done|].
  destruct (m !! cur) as [[| | |]|] eqn:E.
  - apply Hd in E. rewrite E. apply IH.
  - destruct (m' !! cur) as [[| | |]|] eqn:E'; try done.
    apply Hd in E'. congruence.
  - destruct (m' !! cur) as [[| | |]|] eqn:E'; try done.
    apply Hd in E'. congruence.
  - destruct (m' !! cur) as [[| | |]|] eqn:E'; try done.
    apply Hd in E'. congruence.
  - destruct (m' !! cur) as [[| | |]|] eqn:E'; try done.
    apply Hd in E'. congruence.
Qed.

Lemma locate_ext (m m' : gmap (list string) node) (wd : list string) (p : string) :
  (forall key, m' !! key = Some Dir <-> m !! key = Some Dir) ->
  locate m' wd p = locate m wd p.
Proof.
  intros Hd. unfold locate. destruct (_ || _); [done|].
  by apply namei_ext.
Qed.

Lemma insert_zip_dirs (m : gmap (list string) node) (kf : list string)
    (lvl : Z) (es : list (string * node)) :
  m !! kf <> Some Dir ->
  forall key, <[kf := Zip lvl es]> m !! key = Some Dir <-> m !! key = Some Dir.
Proof.
  intros Hnd key. destruct (decide (kf = key)) as [<-|Hne].
  - rewrite lookup_insert_eq. split; [done|]. intros H. by rewrite H in Hnd.
  - by rewrite lookup_insert_ne.
Qed.

Lemma locate_insert_zip (m : gmap (list string) node) (kf wd : list string)
    (lvl : Z) (es : list (string * node)) (p : string) :
  m !! kf <> Some Dir ->
  locate (<[kf := Zip lvl es]> m) wd p = locate m wd p.
Proof. intros Hnd. by apply locate_ext, insert_zip_dirs. Qed.

Lemma stat_insert_zip (m : gmap (list string) node) (kf wd : list string)
    (lvl : Z) (es : list (string * node)) (p : string) :
  m !! kf <> Some Dir ->
  locate m wd p <> Some kf ->
  stat (<[kf := Zip lvl es]> m) wd p = stat m wd p.
Proof.
  intros Hnd Hp. unfold stat. rewrite locate_insert_zip by done.
  destruct (locate m wd p) as [key|]; [|done].
  rewrite lookup_insert_ne; [done|]. congruence.
Qed.

(** Writing to the archive does not change what a write of another source
    stores. *)
Lemma zf_write_insert_zip (level : Z) (m : gmap (list string) node)
    (kf wd : list string) (lvl : Z) (es : list (string * node)) (p a : string) :
  m !! kf <> Some Dir ->
  locate m wd p <> Some kf ->
  match zf_write level m wd p a with
  | Stored name n => zf_write level (<[kf := Zip lvl es]> m) wd p a = Stored name n
  | Refused _ => exists ex, zf_write level (<[kf := Zip lvl es]> m) wd p a = Refused ex
  | Aborted ex => zf_write level (<[kf := Zip lvl es]> m) wd p a = Aborted ex
  end.
Proof.
  intros Hnd Hp. unfold zf_write, os_stat. rewrite stat_insert_zip by done.
  destruct (stat m wd p) as [n|]; [|eauto].
  match goal with |- match ?r with _ => _ end => destruct r eqn:E end; eauto.
Qed.

Lemma entries_of_insert_zip (level : Z) (m : gmap (list string) node)
    (kf wd : list string) (lvl : Z) (es : list (string * node))
    (items : list (string * string)) :
  m !! kf <> Some Dir ->
  (forall it, it ∈ items -> locate m wd it.1 <> Some kf) ->
  entries_of level (<[kf := Zip lvl es]> m) wd items = entries_of level m wd items.
Proof.
  intros Hnd. induction items as [|[p a] items IH]; intros Hsrc; simpl; [done|].
  pose proof (zf_write_insert_zip level m kf wd lvl es p a Hnd) as H.
  rewrite IH by (intros it Hit; apply Hsrc, elem_of_cons; auto).
  destruct (zf_write level m wd p a) as [name n|ex|ex].
  - rewrite H; [done|]. apply (Hsrc (p, a)), elem_of_cons. auto.
  - destruct H as [ex' ->]; [|done]. apply (Hsrc (p, a)), elem_of_cons. auto.
  - rewrite H; [done|]. apply (Hsrc (p, a)), elem_of_cons. auto.
Qed.

Lemma write_items_eq (zf : ZipFile) (items : list (string * string)) (w : world)
    (lvl : Z) (es0 : list (string * node)) :
  fs w !! zf_key zf = Some (Zip lvl es0) ->
  (forall it, it ∈ items -> locate (fs w) (cwd w) it.1 <> Some (zf_key zf)) ->
  match entries_of (zf_level zf) (fs w) (cwd w) items with
  | Some es =>
      (write_items zf items w).1 = Normal tt /\
      fs (write_items zf items w).2 = <[zf_key zf := Zip lvl (es0 ++ es)]> (fs w)
  | None => exists ex, (write_items zf items w).1 = Abrupt (Uncaught ex)
  end.
Proof.
  revert w es0. induction items as [|[p a] items IH]; intros w es0 Hk Hsrc; simpl.
  - split; [done|]. rewrite app_nil_r. symmetry. by apply insert_id.
  - unfold bind, zip_write.
    destruct (zf_write (zf_level zf) (fs w) (cwd w) p a) as [name n|ex|ex] eqn:Hr;
      simpl; [|eauto|eauto].
    assert (Hnd : fs w !! zf_key zf <> Some Dir) by (by rewrite Hk).
    assert (Hfs1 : add_entry (zf_key zf) name n (fs w)
                   = <[zf_key zf := Zip lvl (es0 ++ [(name, n)])]> (fs w)).
    { unfold add_entry. by rewrite Hk. }
    assert (Hrest : forall it, it ∈ items ->
              locate (fs w) (cwd w) it.1 <> Some (zf_key zf)).
    { intros it Hit. apply Hsrc, elem_of_cons. auto. }
    specialize (IH (set_fs (add_entry (zf_key zf) name n (fs w))
                      (add_events [EZipWrite p a true] w))
                   (es0 ++ [(name, n)])).
    simpl in IH. rewrite Hfs1 in IH.
    rewrite entries_of_insert_zip in IH by done.
    rewrite Hfs1.
    destruct (entries_of (zf_level zf) (fs w) (cwd w) items) as [es|].
    + destruct IH as [IH1 IH2].
      * apply lookup_insert_eq.
      * intros it Hit. rewrite locate_insert_zip by done. by apply Hrest.
      * split; [exact IH1|].
        rewrite IH2, insert_insert_eq, <- app_assoc. done.
    + apply IH.
      * apply lookup_insert_eq.
      * intros it Hit. rewrite locate_insert_zip by done. by apply Hrest.
Qed.

(** The archive stage when the destination can be opened and no source is
    the destination itself. *)
Lemma with_ZipFile_eq (f : string) (lvl : Z) (items : list (string * string))
    (w : world) (kf : list string) :
  locate (fs w) (cwd w) f = Some kf ->
  fs w !! kf <> Some Dir ->
  (forall it, it ∈ items -> locate (fs w) (cwd w) it.1 <> Some kf) ->
  match entries_of lvl (fs w) (cwd w) items with
  | Some es =>
      (with_ZipFile f lvl (fun zf => write_items zf items) w).1 = Normal tt /\
      fs (with_ZipFile f lvl (fun zf => write_items zf items) w).2
      = <[kf := Zip lvl es]> (fs w)
  | None =>
      exists ex,
        (with_ZipFile f lvl (fun zf => write_items zf items) w).1
        = Abrupt (Uncaught ex)
  end.
Proof.
  intros Hl Hnd Hsrc.
  set (zf := {| zf_key := kf; zf_name := f; zf_level := lvl |}).
  assert (Hopen : zip_open f lvl w
                  = (Normal zf, set_fs (<[kf := Zip lvl []]> (fs w))
                                  (add_events [EZipOpen f lvl true] w))).
  { unfold zip_open. rewrite Hl. by destruct (fs w !! kf) as [[| | |]|]. }
  unfold with_ZipFile, bind. rewrite Hopen. unfold finally, zip_close.
  set (w1 := set_fs _ _).
  pose proof (write_items_eq zf items w1 lvl []) as H.
  simpl in H. rewrite entries_of_insert_zip in H by done.
  destruct (entries_of lvl (fs w) (cwd w) items) as [es|].
  - destruct H as [H1 H2].
    + apply lookup_insert_eq.
    + intros it Hit. rewrite locate_insert_zip by done. by apply Hsrc.
    + rewrite insert_insert_eq in H2.
      destruct (write_items zf items w1) as [c w2]. simpl in *.
      rewrite H2, lookup_insert_eq. simpl. by rewrite H1, H2.
  - destruct H as [ex H].
    + apply lookup_insert_eq.
    + intros it Hit. rewrite locate_insert_zip by done. by apply Hsrc.
    + destruct (write_items zf items w1) as [c w2]. simpl in *. subst c.
      destruct (fs w2 !! kf) as [[| | |]|]; simpl; eauto.
Qed.

(** The archive stage when the destination cannot be opened. *)
Lemma with_ZipFile_unopened (f : string) (lvl : Z) (items : list (string * string))
    (w : world) :
  (stat (fs w) (cwd w) f = Some Dir ->
   with_ZipFile f lvl (fun zf => write_items zf items) w
   = (Abrupt (Uncaught (IsADirectoryError f)), add_events [EZipOpen f lvl false] w)) /\
  (locate (fs w) (cwd w) f = None ->
   with_ZipFile f lvl (fun zf => write_items zf items) w
   = (Abrupt (Uncaught (lookup_error true (fs w) (cwd w) f)),
      add_events [EZipOpen f lvl false] w)).
Proof.
  unfold with_ZipFile, bind, zip_open, stat.
  destruct (locate (fs w) (cwd w) f) as [kf|]; split; try done.
  by intros ->.
Qed.

(** An invocation that reaches the archive stage. *)
Lemma invoke_archive_eq (prm : params) (w : world) (k kf : list string) (lvl : Z) :
  workdir prm w = inr k ->
  negb (force prm)
    && exists_in (fs w) k (OsPath.expanduser (w_env w) (filename prm)) = false ->
  first_missing (fs w) k (paths prm) = None ->
  resolve_compress_level (compress_level prm) = inr lvl ->
  locate (fs w) k (OsPath.expanduser (w_env w) (filename prm)) = Some kf ->
  fs w !! kf <> Some Dir ->
  (forall it, it ∈ mapping (flatten prm) (w_env w) (paths prm) [] ->
     locate (fs w) k it.1 <> Some kf) ->
  match entries_of lvl (fs w) k (mapping (flatten prm) (w_env w) (paths prm) []) with
  | Some es =>
      (invoke prm w).1 = ExitJson (set_changed true (initial_result prm (w_env w))) /\
      fs (invoke prm w).2 = <[kf := Zip lvl es]> (fs w)
  | None => exists ex, (invoke prm w).1 = Uncaught ex
  end.
Proof.
  intros Hwd Hg Hm Hlvl Hl Hnd Hsrc.
  rewrite invoke_unfold. cbv zeta. rewrite Hwd, Hg, Hm, Hlvl.
  match goal with |- context [with_ZipFile ?f ?n ?b ?w2] =>
    pose proof (with_ZipFile_eq f n
                  (mapping (flatten prm) (w_env w) (paths prm) []) w2 kf Hl Hnd Hsrc)
      as H;
    destruct (with_ZipFile f n b w2) as [c w3]
  end.
  simpl in H.
  destruct (entries_of lvl (fs w) k _) as [es|].
  - destruct H as [Hc Hfs]. subst c. simpl. by rewrite Hfs.
  - destruct H as [ex Hc]. subst c. simpl. eauto.
Qed.

(** The entries stored by writes under relative names. *)
Lemma entries_of_relative (level : Z) (m : gmap (list string) node)
    (wd : list string) (items : list (string * string)) (es : list (string * node)) :
  (forall it, it ∈ items ->
     PyStr.startswith PyStr.sep it.2 = false /\
     (PyStr.contains PyStr.NUL it.1 = false ->
      PyStr.contains PyStr.NUL it.2 = false)) ->
  entries_of level m wd items = Some es ->
  Forall2 (fun it e =>
             exists n, stat m wd it.1 = Some n /\
               e = (if is_dir n then OsPath.normpath it.2 +:+ "/"
                    else OsPath.normpath it.2, n))
    items es.
Proof.
  revert es. induction items as [|[p a] items IH]; intros es Hrel; simpl.
  - intros [= <-]. constructor.
  - destruct (zf_write level m wd p a) as [name c|ex|ex] eqn:Hw; [|done|done].
    destruct (entries_of level m wd items) as [es'|] eqn:He; [|done].
    intros [= <-]. constructor.
    + destruct (zf_write_stat _ _ _ _ _ _ _ Hw) as [n Hs].
      destruct (Hrel (p, a)) as [H1 H2]; [apply elem_of_cons; auto|]. simpl in *.
      rewrite (zf_write_relative level m wd p a n Hs H1) in Hw
        by (apply H2; by eapply stat_no_nul).
      exists n. split; [done|].
      destruct n; simpl in *;
        try (destruct (compressobj level); [done|]); by injection Hw as <- <-.
    + apply IH; [|done]. intros it Hit. apply Hrel, elem_of_cons. auto.
Qed.

Lemma entries_of_found (level : Z) (m : gmap (list string) node)
    (wd : list string) (items : list (string * string)) :
  (forall it, it ∈ items ->
     exists_in m wd it.1 = true /\
     PyStr.startswith PyStr.sep it.2 = false /\
     (PyStr.contains PyStr.NUL it.1 = false ->
      PyStr.contains PyStr.NUL it.2 = false)) ->
  compressobj level = None ->
  exists es, entries_of level m wd items = Some es.
Proof.
  intros Hall Hlvl. induction items as [|[p a] items IH]; simpl; [eauto|].
  destruct (Hall (p, a)) as (Hex & Hrel & Hnul); [apply elem_of_cons; auto|].
  simpl in *. unfold exists_in in Hex.
  destruct (stat m wd p) as [n|] eqn:Hs; [|done].
  rewrite (zf_write_relative level m wd p a n Hs Hrel)
    by (apply Hnul; by eapply stat_no_nul).
  destruct IH as [es ->].
  { intros it Hit. apply Hall, elem_of_cons. auto. }
  rewrite Hlvl. destruct (is_dir n); eauto.
Qed.

(** What an invocation that reports [changed = true] has written, when no
    source is the destination itself. *)
Lemma changed_archive (prm : params) (w : world) (k kf : list string) :
  workdir prm w = inr k ->
  locate (fs w) k (OsPath.expanduser (w_env w) (filename prm)) = Some kf ->
  (forall p, p ∈ paths prm ->
     locate (fs w) k (OsPath.expanduser (w_env w) p) <> Some kf) ->
  reported_changed (invoke prm w).1 = true ->
  exists lvl es,
    resolve_compress_level (compress_level prm) = inr lvl /\
    fs (invoke prm w).2 = <[kf := Zip lvl es]> (fs w) /\
    Forall2 (fun it e =>
               exists n, stat (fs w) k it.1 = Some n /\
                 e = (if is_dir n then OsPath.normpath it.2 +:+ "/"
                      else OsPath.normpath it.2, n))
      (mapping (flatten prm) (w_env w) (paths prm) []) es.
Proof.
  intros Hwd Hl Hsrc Hch.
  assert (Hitems : forall it,
            it ∈ mapping (flatten prm) (w_env w) (paths prm) [] ->
            locate (fs w) k it.1 <> Some kf).
  { intros it Hit. destruct (mapping_item_source _ _ _ _ Hit) as (src & Hs & ->).
    by apply Hsrc. }
  pose proof (invoke_unfold prm w) as Hu. cbv zeta in Hu. rewrite Hwd in Hu.
  destruct (negb (force prm) && exists_in (fs w) k _) eqn:Hg.
  { rewrite Hu in Hch. done. }
  destruct (first_missing (fs w) k (paths prm)) as [p|] eqn:Hm.
  { rewrite Hu in Hch. done. }
  destruct (resolve_compress_level (compress_level prm)) as [msg|lvl] eqn:Hlvl.
  { rewrite Hu in Hch. done. }
  assert (Hnd : fs w !! kf <> Some Dir).
  { intros Hd.
    match type of Hu with context [with_ZipFile ?f ?n ?b ?w2] =>
      destruct (with_ZipFile_unopened f n
                  (mapping (flatten prm) (w_env w) (paths prm) []) w2)
        as [Hc _]
    end.
    rewrite Hc in Hu.
    - rewrite Hu in Hch. done.
    - unfold stat. simpl. by rewrite Hl. }
  pose proof (invoke_archive_eq prm w k kf lvl Hwd Hg Hm Hlvl Hl Hnd Hitems) as H.
  destruct (entries_of lvl (fs w) k _) as [es|] eqn:He.
  - destruct H as [Ho Hfs]. exists lvl, es. split; [done|]. split; [done|].
    eapply entries_of_relative; [|exact He].
    intros it Hit. destruct (mapping_item_name _ _ _ _ Hit) as (_ & H1 & H2). done.
  - destruct H as [ex Ho]. rewrite Ho in Hch. done.
Qed.

(** X7.  An invocation that reports [changed = true], and in which no
    source is the destination itself, leaves the file system as it was
    except for the destination, which holds an archive at the resolved level
    with one entry per mapped path, in order.  The entry has the content of
    the path, and as its name the mapped name normalised by [zipfile]
    ([normpath]), with a separator appended when the path is a directory. *)
Theorem archive_written_exactly (prm : params) (w : world) (k kf : list string) :
  workdir prm w = inr k ->
  locate (fs w) k (OsPath.expanduser (w_env w) (filename prm)) = Some kf ->
  (forall p, p ∈ paths prm ->
     locate (fs w) k (OsPath.expanduser (w_env w) p) <> Some kf) ->
  reported_changed (invoke prm w).1 = true ->
  exists lvl es,
    resolve_compress_level (compress_level prm) = inr lvl /\
    fs (invoke prm w).2 = <[kf := Zip lvl es]> (fs w) /\
    Forall2 (fun it e =>
               exists n, stat (fs w) k it.1 = Some n /\
                 e = (if is_dir n then OsPath.normpath it.2 +:+ "/"
                      else OsPath.normpath it.2, n))
      (mapping (flatten prm) (w_env w) (paths prm) []) es.
Proof. apply changed_archive. Qed.

Lemma archive_written_exactly_witness :
  mapping false demo_env ["./a.txt"; "sub"] [] = [("./a.txt", "./a.txt"); ("sub", "sub")] /\
  fs (invoke (with_paths ["./a.txt"; "sub"] (with_filename "out.zip" demo_params))
        demo_world).2
  = <[ ["work"; "out.zip"] := Zip (-1) [("a.txt", Raw "A"); ("sub/", Dir)] ]> demo_fs.
Proof.
  split; [vm_compute; reflexivity|].
  destruct (archive_written_exactly
              (with_paths ["./a.txt"; "sub"] (with_filename "out.zip" demo_params))
              demo_world ["work"] ["work"; "out.zip"] eq_refl eq_refl)
    as (lvl & es & Hlvl & Hfs & Hes).
  - intros p Hp. apply elem_of_cons in Hp as [->|Hp]; [vm_compute; discriminate|].
    apply list_elem_of_singleton in Hp. subst p. vm_compute. discriminate.
  - vm_compute. reflexivity.
  - injection Hlvl as <-.
    inversion Hes as [|it1 e1 l1 l1' (n1 & Hs1 & He1) Hes1]; subst.
    inversion Hes1 as [|it2 e2 l2 l2' (n2 & Hs2 & He2) Hes2]; subst.
    inversion Hes2; subst.
    vm_compute in Hs1. vm_compute in Hs2.
    injection Hs1 as <-. injection Hs2 as <-. exact Hfs.
Defined.

(** X8.  Good inputs succeed: when the working directory is entered,
    [force] is set or the destination does not exist, every path and its
    expansion exist, no source is the destination, the setting is one of the
    four tokens and the destination can be opened, the module reports
    [changed = true] and the destination holds the archive of the mapped
    paths, each under its normalised name. *)
Theorem good_inputs_succeed (prm : params) (w : world) (k kf : list string)
    (s : string) (lvl : Z) :
  workdir prm w = inr k ->
  negb (force prm)
    && exists_in (fs w) k (OsPath.expanduser (w_env w) (filename prm)) = false ->
  (forall p, p ∈ paths prm ->
     exists_in (fs w) k p = true /\
     exists_in (fs w) k (OsPath.expanduser (w_env w) p) = true /\
     locate (fs w) k (OsPath.expanduser (w_env w) p) <> Some kf) ->
  compress_level prm = PyString s ->
  COMPRESS_MAPPING !! s = Some lvl ->
  locate (fs w) k (OsPath.expanduser (w_env w) (filename prm)) = Some kf ->
  fs w !! kf <> Some Dir ->
  (invoke prm w).1 = ExitJson (set_changed true (initial_result prm (w_env w))) /\
  exists es,
    fs (invoke prm w).2 = <[kf := Zip lvl es]> (fs w) /\
    Forall2 (fun it e =>
               exists n, stat (fs w) k it.1 = Some n /\
                 e = (if is_dir n then OsPath.normpath it.2 +:+ "/"
                      else OsPath.normpath it.2, n))
      (mapping (flatten prm) (w_env w) (paths prm) []) es.
Proof.
  intros Hwd Hg Hps Hs Hmap Hl Hnd.
  assert (Hm : first_missing (fs w) k (paths prm) = None).
  { apply first_missing_all. intros q Hq. by apply Hps. }
  assert (Hlvl : resolve_compress_level (compress_level prm) = inr lvl).
  { rewrite Hs. unfold resolve_compress_level. simpl. by rewrite Hmap. }
  assert (Hrange : compressobj lvl = None).
  { destruct (COMPRESS_MAPPING_range s lvl Hmap) as [-> | [-> | [-> | ->]]]; done. }
  assert (Hitems : forall it,
            it ∈ mapping (flatten prm) (w_env w) (paths prm) [] ->
            exists_in (fs w) k it.1 = true /\ locate (fs w) k it.1 <> Some kf).
  { intros it Hit. destruct (mapping_item_source _ _ _ _ Hit) as (src & Hsrc & ->).
    destruct (Hps src Hsrc) as (_ & H1 & H2). done. }
  assert (Hnames : forall it,
            it ∈ mapping (flatten prm) (w_env w) (paths prm) [] ->
            PyStr.startswith PyStr.sep it.2 = false /\
            (PyStr.contains PyStr.NUL it.1 = false ->
             PyStr.contains PyStr.NUL it.2 = false)).
  { intros it Hit. destruct (mapping_item_name _ _ _ _ Hit) as (_ & H1 & H2). done. }
  destruct (entries_of_found lvl (fs w) k
              (mapping (flatten prm) (w_env w) (paths prm) [])) as [es He];
    [|done|].
  { intros it Hit. destruct (Hitems it Hit), (Hnames it Hit). done. }
  pose proof (invoke_archive_eq prm w k kf lvl Hwd Hg Hm Hlvl Hl Hnd) as H.
  rewrite He in H. destruct H as [Ho Hfs].
  { intros it Hit. by apply Hitems. }
  split; [done|]. exists es. split; [done|].
  by eapply entries_of_relative.
Qed.

Lemma good_inputs_succeed_witness :
  (invoke (with_compress_level (PyString "fast")
             (with_filename "out.zip" demo_params)) demo_world).1
  = ExitJson (set_changed true
                (initial_result
                   (with_compress_level (PyString "fast")
                      (with_filename "out.zip" demo_params)) demo_env)) /\
  fs (invoke (with_compress_level (PyString "fast")
                (with_filename "out.zip" demo_params)) demo_world).2
  = <[ ["work"; "out.zip"] := Zip 1 [("a.txt", Raw "A"); ("sub/b.txt", Raw "B")] ]>
      demo_fs.
Proof.
  destruct (good_inputs_succeed
              (with_compress_level (PyString "fast")
                 (with_filename "out.zip" demo_params))
              demo_world ["work"] ["work"; "out.zip"] "fast" 1
              eq_refl eq_refl) as (Ho & es & Hfs & Hes); try reflexivity.
  - intros p Hp. apply elem_of_cons in Hp as [->|Hp].
    + repeat split; vm_compute; congruence.
    + apply list_elem_of_singleton in Hp. subst p.
      repeat split; vm_compute; congruence.
  - vm_compute. discriminate.
  - split; [exact Ho|].
    inversion Hes as [|it1 e1 l1 l1' (n1 & Hs1 & He1) Hes1]; subst.
    inversion Hes1 as [|it2 e2 l2 l2' (n2 & Hs2 & He2) Hes2]; subst.
    inversion Hes2; subst.
    vm_compute in Hs1. vm_compute in Hs2.
    injection Hs1 as <-. injection Hs2 as <-. exact Hfs.
Defined.

(** ** Repeating an invocation *)

Lemma with_ZipFile_fs (f : string) (lvl : Z) (items : list (string * string))
    (w : world) :
  match (with_ZipFile f lvl (fun zf => write_items zf items) w).1 with
  | Normal _ =>
      exists kf es,
        locate (fs w) (cwd w) f = Some kf /\
        fs w !! kf <> Some Dir /\
        fs (with_ZipFile f lvl (fun zf => write_items zf items) w).2 !! kf
        = Some (Zip lvl es) /\
        forall key, key <> kf ->
          fs (with_ZipFile f lvl (fun zf => write_items zf items) w).2 !! key
          = fs w !! key
  | Abrupt o => exists ex, o = Uncaught ex
  end.
Proof.
  pose proof (with_ZipFile_spec f lvl items w) as Hspec.
  destruct (with_ZipFile f lvl _ w) as [c w'] eqn:Hrun. simpl.
  destruct c as [u|o].
  2:{ destruct Hspec as (_ & _ & ex & -> & _). eauto. }
  clear Hspec. revert Hrun. unfold with_ZipFile, bind, zip_open.
  destruct (locate (fs w) (cwd w) f) as [kf|]; [|done].
  assert (Hgo : fs w !! kf <> Some Dir ->
    finally (write_items {| zf_key := kf; zf_name := f; zf_level := lvl |} items)
      (zip_close {| zf_key := kf; zf_name := f; zf_level := lvl |})
      (set_fs (<[kf := Zip lvl []]> (fs w)) (add_events [EZipOpen f lvl true] w))
    = (Normal u, w') ->
    exists kf0 es,
      Some kf = Some kf0 /\ fs w !! kf0 <> Some Dir /\
      fs w' !! kf0 = Some (Zip lvl es) /\
      forall key, key <> kf0 -> fs w' !! key = fs w !! key).
  { intros Hnd. unfold finally, zip_close.
    set (zf := {| zf_key := kf; zf_name := f; zf_level := lvl |}).
    set (w1 := set_fs _ _).
    pose proof (write_items_spec zf items w1) as Hs.
    pose proof (write_items_keeps_zip zf items w1 lvl []) as Hz.
    destruct (write_items zf items w1) as [c w2]. simpl in Hz.
    destruct Hs as (_ & _ & Hother & _).
    destruct c as [v|o].
    - destruct Hz as [es Hes]; [simpl; apply lookup_insert_eq|].
      simpl. rewrite Hes. intros [= -> <-].
      exists kf, es. split; [done|]. split; [done|]. split; [done|].
      intros key Hkey. simpl. rewrite Hother by done. simpl.
      by rewrite lookup_insert_ne.
    - simpl. by destruct (fs w2 !! kf) as [[| | |]|]. }
  destruct (fs w !! kf) as [[| | |]|] eqn:Hk; try done; apply Hgo; done.
Qed.

Lemma chdir_target_ext (m m' : gmap (list string) node) (wd k : list string)
    (d : string) :
  (forall key, m' !! key = Some Dir <-> m !! key = Some Dir) ->
  chdir_target m wd d = inr k -> chdir_target m' wd d = inr k.
Proof.
  intros Hd. rewrite !chdir_target_inr, (locate_ext m m') by done.
  intros [Hl Hk]. split; [done|]. by apply Hd.
Qed.

Lemma workdir_dirs_ext (prm : params) (w w2 : world) (k : list string) :
  w_env w2 = w_env w -> cwd w2 = cwd w ->
  (forall key, fs w2 !! key = Some Dir <-> fs w !! key = Some Dir) ->
  workdir prm w = inr k -> workdir prm w2 = inr k.
Proof.
  intros He Hc Hd. unfold workdir. rewrite He, Hc.
  destruct (expanded_chdir (w_env w) (chdir prm)) as [d|]; [|done].
  destruct (truthy (Some d)); [|done]. by apply chdir_target_ext.
Qed.

(** What an invocation that ends in [exit_json] leaves. *)
Lemma invoke_exit_fs (prm : params) (w : world) (r : result) :
  (invoke prm w).1 = ExitJson r ->
  exists k,
    workdir prm w = inr k /\
    ((fs (invoke prm w).2 = fs w /\
      exists_in (fs w) k (OsPath.expanduser (w_env w) (filename prm)) = true) \/
     (exists kf lvl es,
        locate (fs w) k (OsPath.expanduser (w_env w) (filename prm)) = Some kf /\
        fs w !! kf <> Some Dir /\
        fs (invoke prm w).2 !! kf = Some (Zip lvl es) /\
        forall key, key <> kf -> fs (invoke prm w).2 !! key = fs w !! key)).
Proof.
  rewrite invoke_unfold. cbv zeta.
  destruct (workdir prm w) as [ex|k]; [done|]. intros Ho. exists k. split; [done|].
  destruct (negb (force prm) && exists_in (fs w) k _) eqn:Hg.
  { left. apply andb_true_iff in Hg as [_ He]. done. }
  destruct (first_missing (fs w) k (paths prm)); [done|].
  destruct (resolve_compress_level (compress_level prm)) as [msg|lvl]; [done|].
  right.
  match type of Ho with context [with_ZipFile ?f ?n ?b ?w2] =>
    pose proof (with_ZipFile_fs f n
                  (mapping (flatten prm) (w_env w) (paths prm) []) w2) as Hz;
    destruct (with_ZipFile f n b w2) as [[u|o] w3]
  end; simpl in Hz.
  - destruct Hz as (kf & es & Hl & Hnd & Hzip & Hother).
    exists kf, lvl, es. done.
  - destruct Hz as [ex ->]. done.
Qed.

(** X10.  Without [force], an invocation that ended in [exit_json] is not
    repeated: run again with the same parameters from the same process state,
    on the file system the first run left, the module finds the destination,
    reports [changed = false], calls [zipfile] not at all and leaves every
    file as it is. *)
Theorem idempotent_without_force (prm : params) (w w2 : world) (r : result) :
  force prm = false ->
  (invoke prm w).1 = ExitJson r ->
  w_env w2 = w_env w -> cwd w2 = cwd w -> fs w2 = fs (invoke prm w).2 ->
  (invoke prm w2).1 = ExitJson (initial_result prm (w_env w)) /\
  fs (invoke prm w2).2 = fs w2 /\
  (forall e, e ∈ calls prm w2 -> is_zip_event e = false).
Proof.
  intros Hf Ho He Hc Hfs.
  destruct (invoke_exit_fs prm w r Ho) as (k & Hwd & Hcase).
  assert (Hgoal : workdir prm w2 = inr k /\
            exists_in (fs w2) k (OsPath.expanduser (w_env w2) (filename prm)) = true).
  { destruct Hcase as [[Hsame Hex]|(kf & lvl & es & Hl & Hnd & Hzip & Hother)].
    - rewrite Hfs, Hsame, He. split; [|done].
      rewrite <- Hwd. apply workdir_ext; congruence.
    - assert (Hd : forall key, fs w2 !! key = Some Dir <-> fs w !! key = Some Dir).
      { intros key. rewrite Hfs. destruct (decide (key = kf)) as [->|Hne].
        - rewrite Hzip. split; [done|]. intros H. by rewrite H in Hnd.
        - by rewrite Hother. }
      split; [by apply (workdir_dirs_ext prm w w2)|].
      unfold exists_in, stat. rewrite He, (locate_ext (fs w) (fs w2)) by done.
      rewrite Hl, Hfs, Hzip. done. }
  destruct Hgoal as [Hwd2 Hex2].
  destruct (invoke_noop prm w2 k Hwd2 Hf Hex2) as (Ho2 & Hfs2 & Hcalls).
  rewrite He in Ho2. split; [done|]. split; [done|].
  intros e. rewrite Hcalls, elem_of_app, list_elem_of_singleton.
  intros [Hin| ->]; [by eapply chdir_events_no_zip|done].
Qed.

Lemma idempotent_without_force_witness :
  (invoke (with_force false demo_params) demo_world).1
  = ExitJson (set_changed true
                (initial_result (with_force false demo_params) demo_env)) /\
  (invoke (with_force false demo_params)
     {| w_env := demo_env; cwd := ["work"];
        fs := fs (invoke (with_force false demo_params) demo_world).2;
        trace := [] |}).1
  = ExitJson (initial_result (with_force false demo_params) demo_env).
Proof.
  assert (Ho : (invoke (with_force false demo_params) demo_world).1
               = ExitJson (set_changed true
                             (initial_result (with_force false demo_params)
                                demo_env))).
  { vm_compute. reflexivity. }
  split; [exact Ho|].
  exact (proj1 (idempotent_without_force (with_force false demo_params)
                  demo_world
                  {| w_env := demo_env; cwd := ["work"];
                     fs := fs (invoke (with_force false demo_params)
                                 demo_world).2;
                     trace := [] |}
                  _ eq_refl Ho eq_refl eq_refl eq_refl)).
Defined.

(** ** A destination that cannot be opened *)

Lemma lookup_error_open (m : gmap (list string) node) (wd : list string)
    (f : string) :
  lookup_error true m wd f = ValueError "embedded null byte" \/
  lookup_error true m wd f = FileNotFoundError f \/
  lookup_error true m wd f = NotADirectoryError f \/
  lookup_error true m wd f = IsADirectoryError f.
Proof.
  unfold lookup_error. destruct (PyStr.contains PyStr.NUL f); [auto|].
  destruct (String.eqb f ""); [auto|].
  destruct (namei_errno _ _ _ _); simpl; auto.
Qed.

(** X11.  A destination that cannot be opened ends the invocation in the
    exception of [open], which nothing handles, and the file system is as it
    was.  When the expanded [filename] names a directory and [force] is set,
    this is [IsADirectoryError] (without [force] the guard finds the
    directory and exits with [changed = false]).  When no path leads to it,
    with [force] as without, it is the error of the lookup:
    [FileNotFoundError] for a missing directory on the way,
    [NotADirectoryError] for a file on the way, [IsADirectoryError] for a
    name with a trailing separator, [ValueError] for a null character. *)
Theorem destination_not_openable (prm : params) (w : world) (k : list string)
    (lvl : Z) :
  workdir prm w = inr k ->
  (forall q, q ∈ paths prm -> exists_in (fs w) k q = true) ->
  resolve_compress_level (compress_level prm) = inr lvl ->
  let f := OsPath.expanduser (w_env w) (filename prm) in
  (stat (fs w) k f = Some Dir ->
     if force prm
     then (invoke prm w).1 = Uncaught (IsADirectoryError f) /\
          fs (invoke prm w).2 = fs w
     else (invoke prm w).1 = ExitJson (initial_result prm (w_env w)) /\
          fs (invoke prm w).2 = fs w) /\
  (locate (fs w) k f = None ->
     (invoke prm w).1 = Uncaught (lookup_error true (fs w) k f) /\
     fs (invoke prm w).2 = fs w /\
     (lookup_error true (fs w) k f = ValueError "embedded null byte" \/
      lookup_error true (fs w) k f = FileNotFoundError f \/
      lookup_error true (fs w) k f = NotADirectoryError f \/
      lookup_error true (fs w) k f = IsADirectoryError f)).
Proof.
  intros Hwd Hall Hlvl f.
  destruct (first_missing_all (fs w) k (paths prm) Hall) as [Hm _].
  pose proof (invoke_unfold prm w) as Hu. cbv zeta in Hu.
  rewrite Hwd, Hm, Hlvl in Hu. fold f in Hu.
  split.
  - intros Hd. destruct (force prm) eqn:Hf.
    + simpl in Hu.
      match type of Hu with context [with_ZipFile ?f ?n ?b ?w2] =>
        destruct (with_ZipFile_unopened f n
                    (mapping (flatten prm) (w_env w) (paths prm) []) w2)
          as [Hc _]
      end.
      rewrite Hc in Hu by exact Hd. by rewrite Hu.
    + unfold exists_in in Hu. rewrite Hd in Hu. simpl in Hu. by rewrite Hu.
  - intros Hn.
    assert (He : exists_in (fs w) k f = false).
    { unfold exists_in, stat. by rewrite Hn. }
    rewrite He, andb_false_r in Hu.
    match type of Hu with context [with_ZipFile ?f ?n ?b ?w2] =>
      destruct (with_ZipFile_unopened f n
                  (mapping (flatten prm) (w_env w) (paths prm) []) w2)
        as [_ Hc]
    end.
    rewrite Hc in Hu by exact Hn. rewrite Hu. simpl.
    split; [done|]. split; [done|]. apply lookup_error_open.
Qed.

Lemma destination_not_openable_witness :
  ((invoke (with_filename "sub" demo_params) demo_world).1
   = Uncaught (IsADirectoryError "sub") /\
   fs (invoke (with_filename "sub" demo_params) demo_world).2 = demo_fs) /\
  ((invoke (with_force false (with_filename "sub" demo_params)) demo_world).1
   = ExitJson (initial_result (with_force false (with_filename "sub" demo_params))
                 demo_env)) /\
  ((invoke (with_force false (with_filename "a.txt/new.zip" demo_params))
      demo_world).1
   = Uncaught (NotADirectoryError "a.txt/new.zip") /\
   fs (invoke (with_force false (with_filename "a.txt/new.zip" demo_params))
         demo_world).2 = demo_fs) /\
  ((invoke (with_filename "/nodir/new.zip" demo_params) demo_world).1
   = Uncaught (FileNotFoundError "/nodir/new.zip")) /\
  ((invoke (with_filename "new/" demo_params) demo_world).1
   = Uncaught (IsADirectoryError "new/")).
Proof.
  assert (Hall : forall q, q ∈ paths demo_params -> exists_in demo_fs ["work"] q = true).
  { intros q Hq. apply elem_of_cons in Hq as [->|Hq]; [reflexivity|].
    apply list_elem_of_singleton in Hq. subst q. reflexivity. }
  split; [|split; [|split; [|split]]].
  - destruct (destination_not_openable (with_filename "sub" demo_params) demo_world
                ["work"] (-1) eq_refl Hall eq_refl) as [H _].
    exact (H eq_refl).
  - destruct (destination_not_openable
                (with_force false (with_filename "sub" demo_params)) demo_world
                ["work"] (-1) eq_refl Hall eq_refl) as [H _].
    exact (proj1 (H eq_refl)).
  - destruct (destination_not_openable
                (with_force false (with_filename "a.txt/new.zip" demo_params))
                demo_world ["work"] (-1) eq_refl Hall eq_refl) as [_ H].
    destruct (H eq_refl) as (H1 & H2 & _). split; [exact H1 | exact H2].
  - destruct (destination_not_openable
                (with_filename "/nodir/new.zip" demo_params)
                demo_world ["work"] (-1) eq_refl Hall eq_refl) as [_ H].
    exact (proj1 (H eq_refl)).
  - destruct (destination_not_openable
                (with_filename "new/" demo_params)
                demo_world ["work"] (-1) eq_refl Hall eq_refl) as [_ H].
    exact (proj1 (H eq_refl)).
Defined.

(** ** What [force] skips *)

(** X12.  With [force] set the existence of the destination is not asked
    for: every call to [os.path.exists] is about an element of [paths]. *)
Theorem force_skips_destination_check (prm : params) (w : world) (q : string)
    (b : bool) :
  force prm = true ->
  EExists q b ∈ calls prm w ->
  q ∈ paths prm.
Proof.
  intros Hf Hin. pose proof (invoke_calls prm w) as H. cbv zeta in H.
  assert (Hcd : EExists q b ∉ chdir_events prm w).
  { unfold chdir_events. destruct (expanded_chdir _ _); [|apply not_elem_of_nil].
    destruct (truthy _); [|apply not_elem_of_nil].
    rewrite list_elem_of_singleton. done. }
  assert (Hpre : forall k,
            EExists q b ∈ (chdir_events prm w ++ guard_events prm w k)
                            ++ checks (fs w) k (paths prm) ->
            q ∈ paths prm).
  { intros k. unfold guard_events. rewrite Hf, app_nil_r, elem_of_app.
    intros [?|Hc]; [done|].
    destruct (checks_sound _ _ _ _ Hc) as (p & Hp & Heq). by simplify_eq. }
  destruct (workdir prm w) as [ex|k].
  { destruct H as [Hc _]. by rewrite Hc in Hin. }
  rewrite Hf in H. simpl in H.
  destruct (first_missing (fs w) k (paths prm)) as [p|].
  { destruct H as [Hc _]. rewrite Hc in Hin. by apply (Hpre k). }
  destruct (resolve_compress_level (compress_level prm)) as [msg|lvl].
  { destruct H as [Hc _]. rewrite Hc in Hin. by apply (Hpre k). }
  destruct H as (ok & zs & Hz & Hc & _).
  rewrite Hc, app_assoc, elem_of_app in Hin. destruct Hin as [Hin|Hin].
  - by apply (Hpre k).
  - by apply (zip_calls_only_zip _ _ _ _ _ Hz) in Hin.
Qed.

Lemma force_skips_destination_check_witness :
  EExists "sub/b.txt" true ∈ calls (with_filename "out.zip" demo_params) demo_world /\
  "sub/b.txt" ∈ paths (with_filename "out.zip" demo_params).
Proof.
  assert (Hin : EExists "sub/b.txt" true
                ∈ calls (with_filename "out.zip" demo_params) demo_world).
  { apply list_elem_of_In. vm_compute. tauto. }
  split; [exact Hin|].
  exact (force_skips_destination_check (with_filename "out.zip" demo_params)
           demo_world "sub/b.txt" true eq_refl Hin).
Defined.

(** ** Entry names that are empty, and entry names that collide *)

Lemma append_nil_r (s : string) : s +:+ "" = s.
Proof. induction s as [|a s IH]; [done|]. by rewrite append_cons, IH. Qed.

Lemma ends_with_sep_contains (q : string) :
  PyStr.contains PyStr.sep (q +:+ "/") = true.
Proof.
  induction q as [|a q IH]; [done|].
  rewrite append_cons. simpl. rewrite IH. apply orb_true_r.
Qed.

Lemma basename_cons (a : ascii) (r : string) :
  OsPath.basename (String a r)
  = if 0 <=? PyStr.rfind PyStr.sep r then OsPath.basename r
    else if Ascii.eqb a PyStr.sep then r else String a r.
Proof.
  unfold OsPath.basename, PyStr.slice_from. simpl.
  destruct (0 <=? PyStr.rfind PyStr.sep r) eqn:E.
  - apply Z.leb_le in E.
    replace (Z.to_nat (PyStr.rfind PyStr.sep r + 1 + 1))
      with (S (Z.to_nat (PyStr.rfind PyStr.sep r + 1))) by lia.
    done.
  - by destruct (Ascii.eqb a PyStr.sep).
Qed.

Lemma basename_empty (p : string) :
  OsPath.basename p = "" <-> p = "" \/ exists q, p = q +:+ "/".
Proof.
  induction p as [|a r IH]; [by split; auto|].
  rewrite basename_cons.
  assert (Hsplit : forall q, String a r = q +:+ "/" ->
            (a = PyStr.sep /\ r = "") \/ exists q', r = q' +:+ "/").
  { intros [|b q] Hq.
    - left. by injection Hq as Ha Hr.
    - right. rewrite append_cons in Hq. injection Hq as Ha Hr. eauto. }
  destruct (0 <=? PyStr.rfind PyStr.sep r) eqn:E.
  - rewrite IH. split.
    + intros [->|[q ->]]; [done|]. right. by exists (String a q).
    + intros [?|[q Hq]]; [done|].
      destruct (Hsplit q Hq) as [[_ ->]|Hr]; [done|auto].
  - apply Z.leb_gt in E. pose proof (rfind_absent PyStr.sep r E) as Hr.
    assert (Hend : forall q, r <> q +:+ "/").
    { intros q ->. by rewrite ends_with_sep_contains in Hr. }
    destruct (Ascii.eqb a PyStr.sep) eqn:Ea.
    + split.
      * intros ->. right. exists "". apply Ascii.eqb_eq in Ea. by rewrite Ea.
      * intros [?|[q Hq]]; [done|].
        destruct (Hsplit q Hq) as [[_ ->]|[q' Hq']]; [done|]. by destruct (Hend q').
    + split; [done|]. intros [?|[q Hq]]; [done|].
      destruct (Hsplit q Hq) as [[-> _]|[q' Hq']]; [done|]. by destruct (Hend q').
Qed.

Lemma lstrip_replicate (c : ascii) (n : nat) :
  PyStr.lstrip c (PyStr.replicate n c) = "".
Proof. induction n as [|n IH]; simpl; [done|]. by rewrite Ascii.eqb_refl. Qed.

Lemma lstrip_empty (c : ascii) (s : string) :
  PyStr.lstrip c s = "" <-> exists n, s = PyStr.replicate n c.
Proof.
  split.
  - intros H. exists (PyStr.leading c s).
    rewrite (lstrip_decompose c s) at 1. by rewrite H, append_nil_r.
  - intros [n ->]. apply lstrip_replicate.
Qed.

(** X13.  The entry name of an expanded path is empty in two cases only:
    with [flatten], when the path is empty or ends in a separator (a
    directory given as [dir/]); without, when the path consists of
    separators (the root). *)
Theorem empty_entry_names (path : string) :
  (archive_name true path = "" <-> path = "" \/ exists q, path = q +:+ "/") /\
  (archive_name false path = "" <-> exists n, path = PyStr.replicate n PyStr.sep).
Proof. split; [apply basename_empty | apply lstrip_empty]. Qed.

Lemma dict_get_elem (k v : string) (d : list (string * string)) :
  dict_get k d = Some v -> (k, v) ∈ d.
Proof.
  induction d as [|[k' v'] d IH]; simpl; [done|].
  destruct (String.eqb k' k) eqn:E.
  - apply String.eqb_eq in E. intros [= ->]. subst k'. apply elem_of_cons. auto.
  - intros H. apply elem_of_cons. auto.
Qed.

(** X14.  With [flatten], two paths of the same kind (two files, or two
    directories) in different directories that share a base filename are
    both written, under the same name: when the invocation reports
    [changed = true], the archive it leaves holds two entries of that name,
    one with the content of each path. *)
Theorem flatten_collisions_kept (prm : params) (w : world) (k kf : list string)
    (p1 p2 : string) (n1 n2 : node) :
  flatten prm = true ->
  workdir prm w = inr k ->
  locate (fs w) k (OsPath.expanduser (w_env w) (filename prm)) = Some kf ->
  (forall p, p ∈ paths prm ->
     locate (fs w) k (OsPath.expanduser (w_env w) p) <> Some kf) ->
  reported_changed (invoke prm w).1 = true ->
  p1 ∈ paths prm -> p2 ∈ paths prm ->
  OsPath.expanduser (w_env w) p1 <> OsPath.expanduser (w_env w) p2 ->
  OsPath.basename (OsPath.expanduser (w_env w) p1)
  = OsPath.basename (OsPath.expanduser (w_env w) p2) ->
  stat (fs w) k (OsPath.expanduser (w_env w) p1) = Some n1 ->
  stat (fs w) k (OsPath.expanduser (w_env w) p2) = Some n2 ->
  is_dir n1 = is_dir n2 ->
  let base := OsPath.normpath (OsPath.basename (OsPath.expanduser (w_env w) p1)) in
  let name := if is_dir n1 then base +:+ "/" else base in
  exists lvl es i j,
    fs (invoke prm w).2 !! kf = Some (Zip lvl es) /\
    i <> j /\ es !! i = Some (name, n1) /\ es !! j = Some (name, n2) /\
    ~ NoDup es.*1.
Proof.
  intros Hfl Hwd Hl Hsrc Hch H1 H2 Hne Hbase Hs1 Hs2 Hkind base name.
  destruct (changed_archive prm w k kf Hwd Hl Hsrc Hch) as (lvl & es & _ & Hfs & Hes).
  rewrite Hfl in Hes.
  assert (Hitem : forall p n, p ∈ paths prm ->
            stat (fs w) k (OsPath.expanduser (w_env w) p) = Some n ->
            exists i,
              mapping true (w_env w) (paths prm) [] !! i
              = Some (OsPath.expanduser (w_env w) p,
                      OsPath.basename (OsPath.expanduser (w_env w) p)) /\
              es !! i
              = Some (if is_dir n
                      then OsPath.normpath
                             (OsPath.basename (OsPath.expanduser (w_env w) p)) +:+ "/"
                      else OsPath.normpath
                             (OsPath.basename (OsPath.expanduser (w_env w) p)), n)).
  { intros p n Hp Hs.
    pose proof (mapping_lookup_src true (w_env w) (paths prm) [] p Hp) as Hget.
    apply dict_get_elem, list_elem_of_lookup in Hget as [i Hi].
    exists i. split; [exact Hi|].
    destruct (Forall2_lookup_l _ _ _ _ _ Hes Hi) as (e & He & n' & Hs' & ->).
    simpl in Hs'. rewrite Hs in Hs'. injection Hs' as <-. exact He. }
  destruct (Hitem p1 n1 H1 Hs1) as (i & Hi & Hei).
  destruct (Hitem p2 n2 H2 Hs2) as (j & Hj & Hej).
  rewrite <- Hbase, <- Hkind in Hej.
  assert (Hij : i <> j).
  { intros ->. rewrite Hi in Hj. injection Hj as Hj _. done. }
  exists lvl, es, i, j.
  split; [by rewrite Hfs, lookup_insert_eq|]. split; [done|].
  split; [exact Hei|]. split; [exact Hej|].
  intros Hnd. apply Hij.
  apply (NoDup_lookup _ i j name Hnd); rewrite list_lookup_fmap.
  - by rewrite Hei.
  - by rewrite Hej.
Qed.

Lemma flatten_collisions_kept_witness :
  exists lvl es i j,
    fs (invoke (with_flatten true
                  (with_paths ["/home/u/f"; "/work/~/f"] demo_params))
          tilde_world).2 !! ["work"; "new.zip"] = Some (Zip lvl es) /\
    i <> j /\ es !! i = Some ("f", Raw "data") /\ es !! j = Some ("f", Raw "other") /\
    ~ NoDup es.*1.
Proof.
  apply (flatten_collisions_kept
           (with_flatten true
              (with_paths ["/home/u/f"; "/work/~/f"] demo_params))
           tilde_world ["work"] ["work"; "new.zip"] "/home/u/f" "/work/~/f"
           (Raw "data") (Raw "other"));
    try reflexivity.
  - intros p Hp. apply elem_of_cons in Hp as [->|Hp]; [vm_compute; discriminate|].
    apply list_elem_of_singleton in Hp. subst p. vm_compute. discriminate.
  - apply elem_of_cons. auto.
  - apply elem_of_cons. right. apply elem_of_cons. auto.
  - vm_compute. discriminate.
Defined.
